(** * MetricGrabber: a shallow embedding of [bin/MetricGrabber.py]

    The script polls CloudWatch for metric statistics and alarm history and
    prints them.  This development embeds the class [MetricGrabber] as
    state-passing Rocq functions and proves properties of its argument
    parser, its self-imposed rate limit, its pagination loops and its
    descriptor filter.

    Conventions.
    - A [datetime] is the number of microseconds since [datetime.min]
      (0001-01-01T00:00:00); arithmetic that leaves the representable range
      raises [OverflowError], as Python's does.
    - Python exceptions are an outcome of every effectful operation; nothing
      in the source catches them except the [try] of [getCredentials].
    - The effects of a run (lines printed, sleeps, calls to the remote
      service) are collected, in order, in a list of events. *)

From Stdlib Require Import ZArith String Ascii List Lia.
From stdpp Require Import base option list gmap strings sorting.

Local Open Scope string_scope.
Local Open Scope Z_scope.

(** ** Python values used by the script *)

Module Py.

(** *** [str] methods (byte strings of Python 2) *)

Definition is_digit (c : ascii) : bool :=
  let n := N_of_ascii c in (48 <=? n)%N && (n <=? 57)%N.

(** [string.whitespace]: space, \t, \n, \x0b, \x0c, \r. *)
Definition is_whitespace (c : ascii) : bool :=
  let n := N_of_ascii c in (n =? 32)%N || ((9 <=? n)%N && (n <=? 13)%N).

Fixpoint all_digits (s : string) : bool :=
  match s with
  | EmptyString => true
  | String c s' => is_digit c && all_digits s'
  end.

(** [s.isdigit()]: at least one character, and all of them digits. *)
Definition isdigit (s : string) : bool :=
  match s with
  | EmptyString => false
  | String _ _ => all_digits s
  end.

Fixpoint lstrip (s : string) : string :=
  match s with
  | String c s' => if is_whitespace c then lstrip s' else s
  | EmptyString => EmptyString
  end.

Fixpoint rstrip (s : string) : string :=
  match s with
  | EmptyString => EmptyString
  | String c s' =>
      match rstrip s' with
      | EmptyString => if is_whitespace c then EmptyString else String c EmptyString
      | r => String c r
      end
  end.

Definition strip (s : string) : string := rstrip (lstrip s).

Definition digit_value (c : ascii) : Z := Z.of_N (N_of_ascii c) - 48.

(** Value of a run of decimal digits, most significant first. *)
Fixpoint digits_value (acc : Z) (s : string) : Z :=
  match s with
  | EmptyString => acc
  | String c s' => digits_value (10 * acc + digit_value c) s'
  end.

(** [s.startswith(p)] *)
Definition startswith (s p : string) : bool := String.prefix p s.

Fixpoint drop (n : nat) (s : string) : string :=
  match n, s with
  | O, _ => s
  | S n', String _ s' => drop n' s'
  | S _, EmptyString => EmptyString
  end.

(** [s.partition(sep)] for a non-empty [sep] (the script passes [":"];
    Python rejects the empty separator): the part before the first
    occurrence of [sep], [sep] itself and the part after it, or
    [(s, "", "")] when [sep] does not occur. *)
Fixpoint partition (sep s : string) : string * string * string :=
  if String.prefix sep s then (EmptyString, sep, drop (String.length sep) s)
  else match s with
       | EmptyString => (EmptyString, EmptyString, EmptyString)
       | String c s' =>
           let '(h, m, t) := partition sep s' in (String c h, m, t)
       end.

(** ["%-Ns" % s]: [s] left-justified in a field of [n] characters. *)
Fixpoint spaces (n : nat) : string :=
  match n with
  | O => EmptyString
  | S n' => String " " (spaces n')
  end.

Definition ljust (n : nat) (s : string) : string :=
  s +:+ spaces (n - String.length s).

(** ["%s" % x] for a value that may be [None]. *)
Definition str_opt (x : option string) : string := default "None" x.

(** Truth value of a string that may be [None]. *)
Definition truthy (x : option string) : bool :=
  match x with
  | Some (String _ _) => true
  | _ => false
  end.

(** *** Exceptions and outcomes *)

Inductive exn : Type :=
| ValueError
| OverflowError
| KeyError (key : string)
| IndexError
| AttributeError
| IOError
| SystemExit (code : Z)
| Exception (msg : string).

(** What a computation ends in: a value, an uncaught exception, or the
    loop bound of the model being reached ([OutOfFuel] is no Python
    behaviour: it marks a [while True] loop cut short by the model). *)
Inductive Outcome (A : Type) : Type :=
| Ok (a : A)
| Raise (e : exn)
| OutOfFuel.
Arguments Ok {A} a.
Arguments Raise {A} e.
Arguments OutOfFuel {A}.

(** [int(s)], base 10: optional surrounding whitespace, an optional sign,
    then one or more digits; anything else is a [ValueError]. *)
Definition int (s : string) : Outcome Z :=
  match strip s with
  | String "-" d => if isdigit d then Ok (- digits_value 0 d) else Raise ValueError
  | String "+" d => if isdigit d then Ok (digits_value 0 d) else Raise ValueError
  | d => if isdigit d then Ok (digits_value 0 d) else Raise ValueError
  end.

(** *** [datetime] and [timedelta] *)

Definition datetime := Z.
Definition usec_per_sec : Z := 1000000.
Definition sec_per_day : Z := 86400.

(** [datetime.max] is 9999-12-31T23:59:59.999999, day 3652059. *)
Definition datetime_max : Z := 3652059 * sec_per_day * usec_per_sec - 1.

Definition representable (t : Z) : bool := (0 <=? t) && (t <=? datetime_max).

(** [timedelta(seconds=n)]: the day count [n // 86400] must not exceed
    999999999 in magnitude. The value is in microseconds. *)
Definition timedelta (seconds : Z) : Outcome Z :=
  if 999999999 <? Z.abs (seconds / sec_per_day) then Raise OverflowError
  else Ok (seconds * usec_per_sec).

(** [d - td] on a datetime and a timedelta. *)
Definition datetime_sub (d : datetime) (td : Z) : Outcome datetime :=
  if representable (d - td) then Ok (d - td) else Raise OverflowError.

End Py.

Export Py.

(** ** Data exchanged with the remote service *)

(** A metric descriptor of [list_metrics] (boto's [Metric]): [str(i)] is
    ["Metric:" + name], [i.dimensions] maps a dimension name to its values
    and [i.Statistics] lists the statistic kinds asked for. *)
Record Metric : Type := {
  name : string;
  dimensions : gmap string (list string);
  Statistics : list string
}.

Definition str_metric (i : Metric) : string := "Metric:" +:+ name i.

(** One page of descriptors with the cursor of the next page. *)
Record MetricPage : Type := {
  metrics_items : list Metric;
  metrics_next_token : option string
}.

(** A data point of [get_metric_statistics]: a dict holding ['Timestamp']
    and one entry per statistic. *)
Record DataPoint : Type := {
  Timestamp : datetime;
  fields : gmap string string
}.

(** Truth value of a data point: a dict that holds ['Timestamp'] is not
    empty. *)
Definition datapoint_truthy (v : DataPoint) : bool := true.

Record AlarmHistoryItem : Type := {
  alarm_name : string;
  tem_type : string;
  alarm_timestamp : datetime;
  summary : string;
  data : string
}.

Record AlarmPage : Type := {
  alarms_items : list AlarmHistoryItem;
  alarms_next_token : option string
}.

(** Arguments of [get_metric_statistics]; [sr_dimensions] is the one-entry
    dict [{attribute : instanceId}] when it is passed. *)
Record StatRequest : Type := {
  sr_period : Z;
  sr_start_time : datetime;
  sr_end_time : datetime;
  sr_metric_name : string;
  sr_namespace : option string;
  sr_statistics : list string;
  sr_dimensions : option (option string * list string)
}.

(** Arguments of [describe_alarm_history], by position:
    alarm_name, start_date, end_date, max_records, history_item_type,
    next_token. *)
Record AlarmRequest : Type := {
  ar_start_date : datetime;
  ar_end_date : datetime;
  ar_next_token : option string
}.

(** What a remote call answers, and how long it took (microseconds). *)
Inductive Response (A : Type) : Type :=
| Success (a : A)
| Failure (e : exn).
Arguments Success {A} a.
Arguments Failure {A} e.

Record Reply (A : Type) : Type := {
  elapsed : N;
  response : Response A
}.
Arguments elapsed {A} r.
Arguments response {A} r.

(** The connection object [self.cloudwatch]. [list_metrics] receives its
    positional arguments as passed: boto declares them as
    [(next_token, dimensions, metric_name, namespace)], all defaulting to
    [None]. *)
Record Cloudwatch : Type := {
  list_metrics : list (option string) -> Reply MetricPage;
  get_metric_statistics : StatRequest -> Reply (list DataPoint);
  describe_alarm_history : AlarmRequest -> Reply AlarmPage
}.

(** The value [list_metrics] sees for its [k]-th positional parameter. *)
Definition positional (args : list (option string)) (k : nat) : option string :=
  default None (args !! k).

Definition arg_next_token (args : list (option string)) := positional args 0.
Definition arg_namespace (args : list (option string)) := positional args 3.

(** An entry of Splunk's credential store. *)
Record Credential : Type := {
  username : string;
  clear_password : string
}.

(** ** The process environment *)

Record Env : Type := {
  sys_argv : list string;
  (** offset of local time from UTC, in microseconds *)
  utcoffset : Z;
  connect_to_region : string -> option string -> option string -> option Cloudwatch;
  (** [entity.getEntities(['admin','passwords'], ..., sessionKey=k).items()] *)
  getEntities : string -> Response (list (string * Credential))
}.

(** ** Output and events *)

(** A printed line. The data rows keep the timestamp whose two renderings
    ([strftime] in UTC and in local time) the script prints, then the text
    of the remaining columns. *)
Inductive Line : Type :=
| Text (s : string)
| MetricRow (ts : datetime) (cells : string)
| AlarmRow (ts : datetime) (text : string).

Inductive Event : Type :=
| EvPrint (l : Line)
| EvStderr (s : string)
| EvSleep (seconds : Z)
| EvListMetrics (args : list (option string))
| EvGetMetricStatistics (r : StatRequest)
| EvDescribeAlarmHistory (r : AlarmRequest)
| EvGetEntities (sessionKey : string).

(** ** The object and the state of a run *)

Record MetricGrabber : Type := {
  accesskey : option string;
  secretkey : option string;
  endTime : datetime;
  startTime : datetime;
  region : string;
  maxRequestsPerTimePeriod : Z;
  secondsToSleep : Z;
  totalRequests : Z;
  requestDateCounter : datetime;
  cloudwatch : option Cloudwatch;
  namespace : option string;
  queryType : option string;
  attribute : option string
}.

(** The object before [__init__] has run: the class attributes [accesskey]
    and [secretkey] are [None]; the other attributes are not set yet. *)
Definition new_object : MetricGrabber :=
  {| accesskey := None; secretkey := None; endTime := 0; startTime := 0;
     region := ""; maxRequestsPerTimePeriod := 0; secondsToSleep := 0;
     totalRequests := 0; requestDateCounter := 0; cloudwatch := None;
     namespace := None; queryType := None; attribute := None |}.

Record State : Type := {
  self : MetricGrabber;
  (** the wall clock, in UTC *)
  clock : datetime;
  (** the lines still to be read from standard input *)
  stdin : list string
}.

(** Attribute assignment, [self.f = v], one function per attribute. *)
Definition set_accesskey (v : option string) (o : MetricGrabber) : MetricGrabber :=
  {| accesskey := v;
     secretkey := secretkey o;
     endTime := endTime o;
     startTime := startTime o;
     region := region o;
     maxRequestsPerTimePeriod := maxRequestsPerTimePeriod o;
     secondsToSleep := secondsToSleep o;
     totalRequests := totalRequests o;
     requestDateCounter := requestDateCounter o;
     cloudwatch := cloudwatch o;
     namespace := namespace o;
     queryType := queryType o;
     attribute := attribute o |}.
Definition set_secretkey (v : option string) (o : MetricGrabber) : MetricGrabber :=
  {| accesskey := accesskey o;
     secretkey := v;
     endTime := endTime o;
     startTime := startTime o;
     region := region o;
     maxRequestsPerTimePeriod := maxRequestsPerTimePeriod o;
     secondsToSleep := secondsToSleep o;
     totalRequests := totalRequests o;
     requestDateCounter := requestDateCounter o;
     cloudwatch := cloudwatch o;
     namespace := namespace o;
     queryType := queryType o;
     attribute := attribute o |}.
Definition set_endTime (v : datetime) (o : MetricGrabber) : MetricGrabber :=
  {| accesskey := accesskey o;
     secretkey := secretkey o;
     endTime := v;
     startTime := startTime o;
     region := region o;
     maxRequestsPerTimePeriod := maxRequestsPerTimePeriod o;
     secondsToSleep := secondsToSleep o;
     totalRequests := totalRequests o;
     requestDateCounter := requestDateCounter o;
     cloudwatch := cloudwatch o;
     namespace := namespace o;
     queryType := queryType o;
     attribute := attribute o |}.
Definition set_startTime (v : datetime) (o : MetricGrabber) : MetricGrabber :=
  {| accesskey := accesskey o;
     secretkey := secretkey o;
     endTime := endTime o;
     startTime := v;
     region := region o;
     maxRequestsPerTimePeriod := maxRequestsPerTimePeriod o;
     secondsToSleep := secondsToSleep o;
     totalRequests := totalRequests o;
     requestDateCounter := requestDateCounter o;
     cloudwatch := cloudwatch o;
     namespace := namespace o;
     queryType := queryType o;
     attribute := attribute o |}.
Definition set_region (v : string) (o : MetricGrabber) : MetricGrabber :=
  {| accesskey := accesskey o;
     secretkey := secretkey o;
     endTime := endTime o;
     startTime := startTime o;
     region := v;
     maxRequestsPerTimePeriod := maxRequestsPerTimePeriod o;
     secondsToSleep := secondsToSleep o;
     totalRequests := totalRequests o;
     requestDateCounter := requestDateCounter o;
     cloudwatch := cloudwatch o;
     namespace := namespace o;
     queryType := queryType o;
     attribute := attribute o |}.
Definition set_maxRequestsPerTimePeriod (v : Z) (o : MetricGrabber) : MetricGrabber :=
  {| accesskey := accesskey o;
     secretkey := secretkey o;
     endTime := endTime o;
     startTime := startTime o;
     region := region o;
     maxRequestsPerTimePeriod := v;
     secondsToSleep := secondsToSleep o;
     totalRequests := totalRequests o;
     requestDateCounter := requestDateCounter o;
     cloudwatch := cloudwatch o;
     namespace := namespace o;
     queryType := queryType o;
     attribute := attribute o |}.
Definition set_secondsToSleep (v : Z) (o : MetricGrabber) : MetricGrabber :=
  {| accesskey := accesskey o;
     secretkey := secretkey o;
     endTime := endTime o;
     startTime := startTime o;
     region := region o;
     maxRequestsPerTimePeriod := maxRequestsPerTimePeriod o;
     secondsToSleep := v;
     totalRequests := totalRequests o;
     requestDateCounter := requestDateCounter o;
     cloudwatch := cloudwatch o;
     namespace := namespace o;
     queryType := queryType o;
     attribute := attribute o |}.
Definition set_totalRequests (v : Z) (o : MetricGrabber) : MetricGrabber :=
  {| accesskey := accesskey o;
     secretkey := secretkey o;
     endTime := endTime o;
     startTime := startTime o;
     region := region o;
     maxRequestsPerTimePeriod := maxRequestsPerTimePeriod o;
     secondsToSleep := secondsToSleep o;
     totalRequests := v;
     requestDateCounter := requestDateCounter o;
     cloudwatch := cloudwatch o;
     namespace := namespace o;
     queryType := queryType o;
     attribute := attribute o |}.
Definition set_requestDateCounter (v : datetime) (o : MetricGrabber) : MetricGrabber :=
  {| accesskey := accesskey o;
     secretkey := secretkey o;
     endTime := endTime o;
     startTime := startTime o;
     region := region o;
     maxRequestsPerTimePeriod := maxRequestsPerTimePeriod o;
     secondsToSleep := secondsToSleep o;
     totalRequests := totalRequests o;
     requestDateCounter := v;
     cloudwatch := cloudwatch o;
     namespace := namespace o;
     queryType := queryType o;
     attribute := attribute o |}.
Definition set_cloudwatch (v : option Cloudwatch) (o : MetricGrabber) : MetricGrabber :=
  {| accesskey := accesskey o;
     secretkey := secretkey o;
     endTime := endTime o;
     startTime := startTime o;
     region := region o;
     maxRequestsPerTimePeriod := maxRequestsPerTimePeriod o;
     secondsToSleep := secondsToSleep o;
     totalRequests := totalRequests o;
     requestDateCounter := requestDateCounter o;
     cloudwatch := v;
     namespace := namespace o;
     queryType := queryType o;
     attribute := attribute o |}.
Definition set_namespace (v : option string) (o : MetricGrabber) : MetricGrabber :=
  {| accesskey := accesskey o;
     secretkey := secretkey o;
     endTime := endTime o;
     startTime := startTime o;
     region := region o;
     maxRequestsPerTimePeriod := maxRequestsPerTimePeriod o;
     secondsToSleep := secondsToSleep o;
     totalRequests := totalRequests o;
     requestDateCounter := requestDateCounter o;
     cloudwatch := cloudwatch o;
     namespace := v;
     queryType := queryType o;
     attribute := attribute o |}.
Definition set_queryType (v : option string) (o : MetricGrabber) : MetricGrabber :=
  {| accesskey := accesskey o;
     secretkey := secretkey o;
     endTime := endTime o;
     startTime := startTime o;
     region := region o;
     maxRequestsPerTimePeriod := maxRequestsPerTimePeriod o;
     secondsToSleep := secondsToSleep o;
     totalRequests := totalRequests o;
     requestDateCounter := requestDateCounter o;
     cloudwatch := cloudwatch o;
     namespace := namespace o;
     queryType := v;
     attribute := attribute o |}.
Definition set_attribute (v : option string) (o : MetricGrabber) : MetricGrabber :=
  {| accesskey := accesskey o;
     secretkey := secretkey o;
     endTime := endTime o;
     startTime := startTime o;
     region := region o;
     maxRequestsPerTimePeriod := maxRequestsPerTimePeriod o;
     secondsToSleep := secondsToSleep o;
     totalRequests := totalRequests o;
     requestDateCounter := requestDateCounter o;
     cloudwatch := cloudwatch o;
     namespace := namespace o;
     queryType := queryType o;
     attribute := v |}.

(** ** The monad of the script: state, exceptions and a log of events *)

Definition M (A : Type) : Type := State -> Outcome A * State * list Event.

Definition ret {A : Type} (a : A) : M A := fun s => (Ok a, s, []).

Definition bind {A B : Type} (m : M A) (f : A -> M B) : M B := fun s =>
  match m s with
  | (Ok a, s1, t1) => let '(r, s2, t2) := f a s1 in (r, s2, (t1 ++ t2)%list)
  | (Raise e, s1, t1) => (Raise e, s1, t1)
  | (OutOfFuel, s1, t1) => (OutOfFuel, s1, t1)
  end.

#[export] Instance M_ret : MRet M := @ret.
#[export] Instance M_bind : MBind M := fun A B f m => bind m f.

Definition raise {A : Type} (e : exn) : M A := fun s => (Raise e, s, []).
Definition out_of_fuel {A : Type} : M A := fun s => (OutOfFuel, s, []).
Definition emit (ev : Event) : M unit := fun s => (Ok tt, s, [ev]).
Definition print (l : Line) : M unit := emit (EvPrint l).

Definition lift {A : Type} (r : Outcome A) : M A := fun s => (r, s, []).

Definition read_self : M MetricGrabber := fun s => (Ok (self s), s, []).

Definition assign (f : MetricGrabber -> MetricGrabber) : M unit := fun s =>
  (Ok tt, {| self := f (self s); clock := clock s; stdin := stdin s |}, []).

Definition advance (usec : Z) : M unit := fun s =>
  (Ok tt, {| self := self s; clock := clock s + usec; stdin := stdin s |}, []).

(** [datetime.datetime.utcnow()] *)
Definition utcnow : M datetime := fun s => (Ok (clock s), s, []).

(** [sys.stdin.readline()]: the next line, or the empty string at the end
    of the input. *)
Definition readline : M string := fun s =>
  match stdin s with
  | [] => (Ok "", s, [])
  | l :: rest => (Ok l, {| self := self s; clock := clock s; stdin := rest |}, [])
  end.

Fixpoint for_each {A : Type} (l : list A) (body : A -> M unit) : M unit :=
  match l with
  | [] => ret tt
  | x :: l' => body x ;; for_each l' body
  end.

(** [time.sleep(seconds)]: the calling thread is suspended for that long;
    a negative duration is refused. *)
Definition sleep (seconds : Z) : M unit :=
  if seconds <? 0 then raise IOError
  else emit (EvSleep seconds) ;; advance (seconds * usec_per_sec).

(** A call to the remote service: it is logged, takes [elapsed] and either
    answers or raises. *)
Definition call {A : Type} (ev : Event) (r : Reply A) : M A :=
  emit ev ;;
  advance (Z.of_N (elapsed r)) ;;
  match response r with
  | Success a => ret a
  | Failure e => raise e
  end.

(** [self.cloudwatch]: calling a method on [None] is an [AttributeError]. *)
Definition connection : M Cloudwatch :=
  o ← read_self;
  match cloudwatch o with
  | Some cw => ret cw
  | None => raise AttributeError
  end.

(** [sorted(values, key=...)]: the stable sort by key. *)
Fixpoint insert_by {A : Type} (key : A -> Z) (x : A) (l : list A) : list A :=
  match l with
  | [] => [x]
  | y :: l' => if key x <=? key y then x :: y :: l' else y :: insert_by key x l'
  end.

Fixpoint sorted {A : Type} (key : A -> Z) (l : list A) : list A :=
  match l with
  | [] => []
  | x :: l' => insert_by key x (sorted key l')
  end.

(** ** The methods of [MetricGrabber] *)

Section Methods.

Variable env : Env.

(** [datetime.datetime.now()]: the wall clock in local time. *)
Definition now : M datetime := fun s => (Ok (clock s + utcoffset env), s, []).

(** [str(e)] of a caught exception. *)
Definition str_exn (e : exn) : string :=
  match e with
  | Exception msg => msg
  | KeyError k => "'" +:+ k +:+ "'"
  | _ => ""
  end.

(** [getCredentials(sessionKey)]: the first credential of the store. The
    [try] catches what derives from [Exception]; [SystemExit] does not. *)
Definition getCredentials (sessionKey : string) : M (string * string) :=
  emit (EvGetEntities sessionKey) ;;
  match getEntities env sessionKey with
  | Failure (SystemExit c) => raise (SystemExit c)
  | Failure e =>
      raise (Exception
        ("Could not get pulse_for_aws_cloudwatch credentials from splunk. Error: "
           +:+ str_exn e))
  | Success [] => raise (Exception "No credentials have been found")
  | Success ((_, c) :: _) => ret (username c, clear_password c)
  end.

(** [grabKeys()] *)
Definition grabKeys : M unit :=
  o ← read_self;
  match accesskey o with
  | None =>
      line ← readline;
      let sessionKey := strip line in
      if (String.length sessionKey =? 0)%nat then
        emit (EvStderr
          "Did not receive a session key from splunkd. Please enable passAuth in inputs.conf for this script") ;;
        raise (SystemExit 2)
      else
        '(u, p) ← getCredentials sessionKey;
        assign (set_accesskey (Some u)) ;;
        assign (set_secretkey (Some p))
  | Some _ => ret tt
  end.

(** [end - datetime.timedelta(seconds=n)] *)
Definition seconds_before (t : datetime) (n : Z) : M datetime :=
  td ← lift (timedelta n);
  lift (datetime_sub t td).

(** The parser for the passed arguments, lines 42 to 57 of [__init__]:
    [sys.argv] holds the script's name and then the tokens. *)
Definition parse_argv : M unit :=
  o ← read_self;
  match sys_argv env with
  | [_; a1] =>
      if isdigit a1 then
        assign (set_region "us-east-1") ;;
        n ← lift (int a1);
        t ← seconds_before (endTime o) n;
        assign (set_startTime t)
      else
        assign (set_region a1) ;;
        t ← seconds_before (endTime o) 300;
        assign (set_startTime t)
  | [_; a1; a2] =>
      if isdigit a1 then
        n ← lift (int a1);
        t ← seconds_before (endTime o) n;
        assign (set_startTime t) ;;
        assign (set_region a2)
      else
        n ← lift (int a2);
        t ← seconds_before (endTime o) n;
        assign (set_startTime t) ;;
        assign (set_region a1)
  | _ =>
      assign (set_region "us-east-1") ;;
      t ← seconds_before (endTime o) 300;
      assign (set_startTime t)
  end.

(** The time window and the region, lines 39 to 57 of [__init__]. *)
Definition resolve : M unit :=
  t ← utcnow;
  assign (set_endTime t) ;;
  parse_argv.

(** [__init__()] *)
Definition __init__ : M unit :=
  grabKeys ;;
  resolve ;;
  assign (set_maxRequestsPerTimePeriod 2) ;;
  assign (set_secondsToSleep 1) ;;
  assign (set_totalRequests 0) ;;
  o ← read_self;
  t' ← now;
  assign (set_requestDateCounter (t' + secondsToSleep o * usec_per_sec)) ;;
  o ← read_self;
  assign (set_cloudwatch
            (connect_to_region env (region o) (accesskey o) (secretkey o))).

(** The self-imposed rate limit, lines 104 to 109 of [printMetrics]. The
    clock is read once for the test and once more after the sleep. *)
Definition throttle : M unit :=
  assign (fun o => set_totalRequests (totalRequests o + 1) o) ;;
  o ← read_self;
  t ← now;
  if (t <? requestDateCounter o) && (maxRequestsPerTimePeriod o <? totalRequests o)
  then
    sleep (secondsToSleep o) ;;
    assign (set_totalRequests 0) ;;
    t' ← now;
    assign (set_requestDateCounter (t' + secondsToSleep o * usec_per_sec))
  else ret tt.

(** [instanceId[0]] *)
Definition first_of (l : list string) : M string :=
  match l with
  | x :: _ => ret x
  | [] => raise IndexError
  end.

(** The cells of a data row: ["%-25s" % v[stat]] for each statistic. *)
Fixpoint row_cells (v : DataPoint) (stats : list string) (tmp : string) : M string :=
  match stats with
  | [] => ret tmp
  | stat :: rest =>
      match fields v !! stat with
      | Some x => row_cells v rest (tmp +:+ ljust 25 x)
      | None => raise (KeyError stat)
      end
  end.

(** The header of the table: the two timestamp columns and one column per
    statistic. *)
Definition statsString (i : Metric) : string :=
  fold_left (fun acc stat => acc +:+ ljust 25 stat) (Statistics i)
            (ljust 25 "Timestamp-UTC" +:+ ljust 35 "Timestamp-Local").

(** The request for the statistics of [i]: without dimensions for the
    aggregate ["MetricName"], else restricted to [{attribute : instanceId}]. *)
Definition stat_request (o : MetricGrabber) (metricName : string)
    (instanceId : list string) (i : Metric) : StatRequest :=
  {| sr_period := 60;
     sr_start_time := startTime o;
     sr_end_time := endTime o;
     sr_metric_name := metricName;
     sr_namespace := namespace o;
     sr_statistics := Statistics i;
     sr_dimensions :=
       if decide (attribute o = Some "MetricName") then None
       else Some (attribute o, instanceId) |}.

(** The body of the loop over the sorted data points, lines 126 to 133. *)
Definition print_datapoint (o : MetricGrabber) (instanceId : list string)
    (metricName : string) (i : Metric) (v : DataPoint) : M unit :=
  if datapoint_truthy v then
    print (Text "") ;;
    g ← first_of instanceId;
    print (Text ("Group: " +:+ g +:+ " -- Metric: " +:+ metricName
                 +:+ " -- Type: " +:+ str_opt (attribute o)
                 +:+ " -- Region: " +:+ region o)) ;;
    print (Text (statsString i)) ;;
    cells ← row_cells v (Statistics i) "";
    print (MetricRow (Timestamp v) cells)
  else ret tt.

(** [printMetrics(instanceId, i)] *)
Definition printMetrics (instanceId : option (list string)) (i : Metric) : M unit :=
  match instanceId with
  | None => ret tt
  | Some inst =>
      throttle ;;
      let metricName := (partition ":" (str_metric i)).2 in
      o ← read_self;
      cw ← connection;
      let req := stat_request o metricName inst i in
      values ← call (EvGetMetricStatistics req) (get_metric_statistics cw req);
      for_each (sorted Timestamp values) (print_datapoint o inst metricName i)
  end.

(** Truth value of a list that may be [None]. *)
Definition list_truthy (x : option (list string)) : bool :=
  match x with
  | Some (_ :: _) => true
  | _ => false
  end.

(** [i.dimensions.get(self.attribute)] *)
Definition dimension_value (o : MetricGrabber) (i : Metric) : option (list string) :=
  match attribute o with
  | Some k => dimensions i !! k
  | None => None
  end.

(** The [instanceId] of lines 145 to 150. *)
Definition resolve_instanceId (o : MetricGrabber) (i : Metric) : option (list string) :=
  if truthy (attribute o) && list_truthy (dimension_value o i) then
    dimension_value o i
  else if bool_decide (attribute o = Some "MetricName")
          && (size (dimensions i) =? 0)%nat then
    Some ["Total"]
  else None.

(** The body of the loop over a page of descriptors, lines 145 to 157. *)
Definition process_item (i : Metric) : M unit :=
  o ← read_self;
  let instanceId := resolve_instanceId o i in
  if list_truthy instanceId then
    if truthy (queryType o) then
      if startswith (str_metric i) ("Metric:" +:+ str_opt (queryType o)) then
        printMetrics instanceId i
      else ret tt
    else printMetrics instanceId i
  else ret tt.

(** The [while True] loop of [grabMetrics], at most [fuel] pages long. *)
Fixpoint grabMetrics_loop (fuel : nat) (metrics : MetricPage) : M unit :=
  match fuel with
  | O => out_of_fuel
  | S fuel' =>
      for_each (metrics_items metrics) process_item ;;
      if truthy (metrics_next_token metrics) then
        cw ← connection;
        let args := [metrics_next_token metrics] in
        metrics' ← call (EvListMetrics args) (list_metrics cw args);
        grabMetrics_loop fuel' metrics'
      else ret tt
  end.

(** [grabMetrics()] *)
Definition grabMetrics (fuel : nat) : M unit :=
  o ← read_self;
  cw ← connection;
  let args := [None; None; None; namespace o] in
  metrics ← call (EvListMetrics args) (list_metrics cw args);
  grabMetrics_loop fuel metrics.

(** The body of the loop over a page of alarms, lines 173 to 178. *)
Definition print_alarm (a : AlarmHistoryItem) : M unit :=
  print (Text "") ;;
  print (Text ("Alarm Name: " +:+ alarm_name a +:+ " -- Item Type: " +:+ tem_type a)) ;;
  print (Text (ljust 35 "Timestamp-UTC" +:+ ljust 35 "Timestamp-Local" +:+ " Summary")) ;;
  print (AlarmRow (alarm_timestamp a) (summary a)) ;;
  print (Text ("Raw Data: " +:+ data a)) ;;
  print (Text "").

Fixpoint grabAlarmHistory_loop (fuel : nat) (alarms : AlarmPage) : M unit :=
  match fuel with
  | O => out_of_fuel
  | S fuel' =>
      for_each (alarms_items alarms) print_alarm ;;
      if truthy (alarms_next_token alarms) then
        o ← read_self;
        cw ← connection;
        let req := {| ar_start_date := startTime o; ar_end_date := endTime o;
                      ar_next_token := alarms_next_token alarms |} in
        alarms' ← call (EvDescribeAlarmHistory req) (describe_alarm_history cw req);
        grabAlarmHistory_loop fuel' alarms'
      else ret tt
  end.

(** [grabAlarmHistory()] *)
Definition grabAlarmHistory (fuel : nat) : M unit :=
  o ← read_self;
  cw ← connection;
  let req := {| ar_start_date := startTime o; ar_end_date := endTime o;
                ar_next_token := None |} in
  alarms ← call (EvDescribeAlarmHistory req) (describe_alarm_history cw req);
  grabAlarmHistory_loop fuel alarms.

(** [connect(namespace, queryType, attribute)] *)
Definition connect (fuel : nat) (ns : option string) (qt att : option string) : M unit :=
  assign (set_namespace ns) ;;
  assign (set_queryType qt) ;;
  assign (set_attribute att) ;;
  if bool_decide (ns = Some "AlarmHistory") then grabAlarmHistory fuel
  else grabMetrics fuel.

End Methods.

(** ** Observations on a run *)

Definition Run (A : Type) : Type := (Outcome A * State * list Event)%type.

Definition outcome_of {A : Type} (r : Run A) : Outcome A := r.1.1.
Definition state_of {A : Type} (r : Run A) : State := r.1.2.
Definition events_of {A : Type} (r : Run A) : list Event := r.2.

(** The durations of the sleeps of a run, in order. *)
Definition sleeps (evs : list Event) : list Z :=
  omap (fun e => match e with EvSleep d => Some d | _ => None end) evs.

(** The statistics requests of a run, in order. *)
Definition stat_requests (evs : list Event) : list StatRequest :=
  omap (fun e => match e with EvGetMetricStatistics r => Some r | _ => None end) evs.

(** The argument lists of the [list_metrics] calls of a run, in order. *)
Definition list_metrics_calls (evs : list Event) : list (list (option string)) :=
  omap (fun e => match e with EvListMetrics a => Some a | _ => None end) evs.

(** The timestamps of the data rows printed by a run, in order. *)
Definition row_timestamps (evs : list Event) : list datetime :=
  omap (fun e => match e with EvPrint (MetricRow ts _) => Some ts | _ => None end) evs.

(** ** Reference behaviour, used to state the properties *)

(** What the rate limit is to do on one call, in the words of its
    contract: count the request; before the deadline and over the allowance,
    sleep, zero the count and move the deadline to the time after the sleep
    plus the sleeping time; else leave count and deadline as they are. *)
Definition throttle_contract (env : Env) (s : State) : Run unit :=
  let o := self s in
  let count := totalRequests o + 1 in
  let t := clock s + utcoffset env in
  if decide (t < requestDateCounter o ∧ maxRequestsPerTimePeriod o < count) then
    let pause := secondsToSleep o * usec_per_sec in
    (Ok tt,
     {| self := set_requestDateCounter (t + pause + pause) (set_totalRequests 0 o);
        clock := clock s + pause; stdin := stdin s |},
     [EvSleep (secondsToSleep o)])
  else
    (Ok tt,
     {| self := set_totalRequests count o; clock := clock s; stdin := stdin s |},
     []).

(** A sequence of calls to the rate limit; before each call the given time
    (in microseconds) passes. *)
Fixpoint throttle_calls (env : Env) (gaps : list N) : M unit :=
  match gaps with
  | [] => ret tt
  | g :: rest => advance (Z.of_N g) ;; throttle env ;; throttle_calls env rest
  end.

(** The pages of a listing: [page_chain cw p rest] when [p] is followed by
    the pages [rest], each page but the last carrying the cursor that
    [list_metrics] answers with the next page, the last carrying none. *)
Inductive page_chain (cw : Cloudwatch) : MetricPage -> list MetricPage -> Prop :=
| chain_last (p : MetricPage) :
    truthy (metrics_next_token p) = false ->
    page_chain cw p []
| chain_next (p q : MetricPage) (rest : list MetricPage) :
    truthy (metrics_next_token p) = true ->
    response (list_metrics cw [metrics_next_token p]) = Success q ->
    page_chain cw q rest ->
    page_chain cw p (q :: rest).

(** Every item of every page in page order: the items of a page, then the
    request for the next page, then the remaining pages. *)
Fixpoint visit_pages (env : Env) (p : MetricPage) (rest : list MetricPage) : M unit :=
  for_each (metrics_items p) (process_item env) ;;
  match rest with
  | [] => ret tt
  | q :: rest' =>
      cw ← connection;
      let args := [metrics_next_token p] in
      _ ← call (EvListMetrics args) (list_metrics cw args);
      visit_pages env q rest'
  end.

(** The filter of the descriptors in the words of its contract: a
    non-empty value for the configured dimension key, or the aggregate
    key ["MetricName"] on a descriptor without dimensions; and, when a name
    pattern is configured, a name that starts with it. A key or pattern
    that is [None] or the empty string is not configured. *)
Definition dimension_selected (o : MetricGrabber) (i : Metric) (inst : list string) : Prop :=
  (∃ k, attribute o = Some k ∧ k ≠ "" ∧ dimensions i !! k = Some inst ∧ inst ≠ [])
  ∨ (attribute o = Some "MetricName" ∧ dimensions i = ∅ ∧ inst = ["Total"]).

Definition name_selected (o : MetricGrabber) (i : Metric) : Prop :=
  match queryType o with
  | None => True
  | Some pattern => String.prefix pattern (name i) = true
  end.

Definition should_emit (o : MetricGrabber) (i : Metric) (inst : list string) : Prop :=
  dimension_selected o i inst ∧ name_selected o i.

(** The total time that passes before the calls of [throttle_calls]. *)
Definition total_gap (gaps : list N) : Z :=
  foldr (fun g acc => Z.of_N g + acc) 0 gaps.

Definition local_now (env : Env) (s : State) : datetime := clock s + utcoffset env.

Definition tick (d : Z) (s : State) : State :=
  {| self := self s; clock := clock s + d; stdin := stdin s |}.

Definition count_request (s : State) : State :=
  {| self := set_totalRequests (totalRequests (self s) + 1) (self s);
     clock := clock s; stdin := stdin s |}.

Definition after_sleep (env : Env) (s : State) : State :=
  let pause := secondsToSleep (self s) * usec_per_sec in
  {| self := set_requestDateCounter (local_now env s + pause + pause)
               (set_totalRequests 0 (self s));
     clock := clock s + pause; stdin := stdin s |}.

Definition cpu_i123 : Metric :=
  {| name := "CPUUtilization";
     dimensions := {[ "InstanceId" := ["i-123"] ]};
     Statistics := ["Average"; "Sum"] |}.

Definition network_in_total : Metric :=
  {| name := "NetworkIn"; dimensions := ∅; Statistics := ["Average"; "Sum"] |}.

Definition network_in_i456 : Metric :=
  {| name := "NetworkIn";
     dimensions := {[ "InstanceId" := ["i-456"] ]};
     Statistics := ["Average"; "Sum"] |}.

Definition example_page1 : MetricPage :=
  {| metrics_items := [cpu_i123; network_in_total];
     metrics_next_token := Some "page-2" |}.

Definition example_page2 : MetricPage :=
  {| metrics_items := [network_in_i456]; metrics_next_token := None |}.

Definition example_point (ts : datetime) (avg sum : string) : DataPoint :=
  {| Timestamp := ts; fields := {[ "Average" := avg; "Sum" := sum ]} |}.

(** 2026-11-03T00:00:00, day 739923. *)
Definition example_midnight : datetime := 739922 * sec_per_day * usec_per_sec.

(** The service answers a listing in two pages and every statistics request
    with three data points that are not in the order of their timestamps. *)
Definition example_cloudwatch : Cloudwatch :=
  {| list_metrics := fun args =>
       {| elapsed := 200000;
          response := Success (if decide (args = [Some "page-2"])
                               then example_page2 else example_page1) |};
     get_metric_statistics := fun _ =>
       {| elapsed := 300000;
          response := Success
            [example_point (example_midnight + 120 * usec_per_sec) "3.0" "6.0";
             example_point example_midnight "1.0" "2.0";
             example_point (example_midnight + 60 * usec_per_sec) "2.0" "4.0"] |};
     describe_alarm_history := fun _ =>
       {| elapsed := 100000;
          response := Success {| alarms_items := []; alarms_next_token := None |} |} |}.

Definition example_env (tokens : list string) : Env :=
  {| sys_argv := "MetricGrabber.py" :: tokens;
     utcoffset := - (6 * 3600 * usec_per_sec);
     connect_to_region := fun _ _ _ => Some example_cloudwatch;
     getEntities := fun _ =>
       Success [("aws", {| username := "AKIAEXAMPLE"; clear_password := "secret" |})] |}.

(** The process as it starts: five minutes past midnight, the session key on
    standard input. *)
Definition example_start : State :=
  {| self := new_object;
     clock := example_midnight + 300 * usec_per_sec;
     stdin := ["session-key
"] |}.

(** The state [__init__] leaves when it returns. *)
Definition example_ready (tokens : list string) : State :=
  state_of (__init__ (example_env tokens) example_start).

(** Whether [t - timedelta(seconds=n)] can be computed. *)
Definition in_range (t : datetime) (n : Z) : bool :=
  negb (999999999 <? Z.abs (n / sec_per_day)) && representable (t - n * usec_per_sec).

(** The region and the look-back seconds the parser settles on. *)
Definition choose (argv : list string) : Outcome (string * Z) :=
  match argv with
  | [_; a1] =>
      if isdigit a1 then
        match int a1 with
        | Ok n => Ok ("us-east-1", n) | Raise e => Raise e | OutOfFuel => OutOfFuel
        end
      else Ok (a1, 300)
  | [_; a1; a2] =>
      match int (if isdigit a1 then a1 else a2) with
      | Ok n => Ok (if isdigit a1 then a2 else a1, n)
      | Raise e => Raise e
      | OutOfFuel => OutOfFuel
      end
  | _ => Ok ("us-east-1", 300)
  end.

(** The state once the window [clock - n seconds, clock] and the region
    are set. *)
Definition placed (s : State) (reg : string) (n : Z) : State :=
  {| self := set_region reg
               (set_startTime (clock s - n * usec_per_sec)
                  (set_endTime (clock s) (self s)));
     clock := clock s; stdin := stdin s |}.

(** [self.f = v] on the state of a run. *)
Definition upd (g : MetricGrabber -> MetricGrabber) (s : State) : State :=
  {| self := g (self s); clock := clock s; stdin := stdin s |}.

(** States whose objects agree on an observation [f]. *)
Definition same_on {X : Type} (f : MetricGrabber -> X) : relation State :=
  fun s s' => f (self s') = f (self s).

(** The time window of the object. *)
Definition window (o : MetricGrabber) : datetime * datetime := (startTime o, endTime o).

(** What a run of [grabMetrics] leaves alone: every attribute but the two
    counters of the rate limit. *)
Definition settings (o : MetricGrabber) : MetricGrabber :=
  set_totalRequests 0 (set_requestDateCounter 0 o).

(** The mapping from the tokens to (region, start, end) as the interface
    describes it: a token is numeric when it is a string of digits; shapes
    the interface leaves open give [None]. *)
Definition resolver_contract (tokens : list string) (t : datetime)
  : option (string * datetime * datetime) :=
  let back (n : Z) := t - n * usec_per_sec in
  match tokens with
  | [] => Some ("us-east-1", back 300, t)
  | [a] =>
      if isdigit a then Some ("us-east-1", back (digits_value 0 a), t)
      else Some (a, back 300, t)
  | [a; b] =>
      if isdigit a && negb (isdigit b) then Some (b, back (digits_value 0 a), t)
      else if negb (isdigit a) && isdigit b then Some (a, back (digits_value 0 b), t)
      else None
  | _ => None
  end.

(** A string that [int] accepts. *)
Definition valid_int_literal (a : string) : Prop := ∃ n, int a = Ok n.

Definition any_event (e : Event) : Prop := True.

Definition is_sleep (e : Event) : Prop := ∃ d, e = EvSleep d.
Definition is_print (e : Event) : Prop := ∃ l, e = EvPrint l.
Definition trivial_frame : relation State := fun _ _ => True.

(** A request for a further page: the cursor is its only argument, so that
    the parameter [namespace] of [list_metrics] takes its default [None]. *)
Definition later_call (args : list (option string)) : Prop :=
  length args = 1%nat
  ∧ truthy (arg_next_token args) = true
  ∧ arg_namespace args = None.

(** A computation that never runs out of fuel. *)
Definition halts {A : Type} (m : M A) : Prop := ∀ s, outcome_of (m s) ≠ OutOfFuel.

(** The value [process_item] hands to [printMetrics] for a descriptor, if
    any (lines 145 to 157). *)
Definition selected (o : MetricGrabber) (i : Metric) : option (list string) :=
  let instanceId := resolve_instanceId o i in
  if list_truthy instanceId
     && (if truthy (queryType o)
         then startswith (str_metric i) ("Metric:" +:+ str_opt (queryType o))
         else true)
  then instanceId else None.

(** The statistics request a descriptor gives rise to, if any. *)
Definition requests_of (o : MetricGrabber) (i : Metric) : list StatRequest :=
  match selected o i with
  | Some inst => [stat_request o (name i) inst i]
  | None => []
  end.

(** The cursors that are followed: one for every page but the last. *)
Definition cursors (p : MetricPage) (rest : list MetricPage) : list (list (option string)) :=
  map (fun q => [metrics_next_token q]) (take (length rest) (p :: rest)).

(** The state in which the examples list the metrics of a namespace. *)
Definition example_listing : State :=
  upd (set_namespace (Some "AWS/EC2"))
    (upd (set_attribute (Some "InstanceId")) (example_ready [])).

Definition session_key_missing : string :=
  "Did not receive a session key from splunkd. Please enable passAuth in inputs.conf for this script".

Definition credentials_unavailable : string :=
  "Could not get pulse_for_aws_cloudwatch credentials from splunk. Error: ".


(** States at the same time. *)
Definition same_clock : relation State := fun s s' => clock s' = clock s.

(** The lines of a run, in order. *)
Definition printed (evs : list Event) : list Line :=
  omap (fun e => match e with EvPrint l => Some l | _ => None end) evs.

(** The first statistic of [stats] that the data point [v] does not hold. *)
Definition missing (v : DataPoint) (stats : list string) : option string :=
  find (fun stat => bool_decide (fields v !! stat = None)) stats.

(** The cells of a row whose data point holds every statistic. *)
Definition cells_of (v : DataPoint) (stats : list string) (tmp : string) : string :=
  fold_left (fun acc stat => acc +:+ ljust 25 (default "" (fields v !! stat)))
            stats tmp.

(** The line that names the series of a block. *)
Definition group_line (o : MetricGrabber) (g metricName : string) : Line :=
  Text ("Group: " +:+ g +:+ " -- Metric: " +:+ metricName
        +:+ " -- Type: " +:+ str_opt (attribute o) +:+ " -- Region: " +:+ region o).

(** The four lines of a data point: an empty line, the series, the column
    header, the row. *)
Definition datapoint_block (o : MetricGrabber) (g metricName : string) (i : Metric)
    (v : DataPoint) : list Line :=
  [Text ""; group_line o g metricName; Text (statsString i);
   MetricRow (Timestamp v) (cells_of v (Statistics i) "")].

Definition failing_cloudwatch : Cloudwatch :=
  {| list_metrics := fun _ =>
       {| elapsed := 0; response := Failure (Exception "Throttling") |};
     get_metric_statistics := fun _ =>
       {| elapsed := 0; response := Failure (Exception "Throttling") |};
     describe_alarm_history := fun _ =>
       {| elapsed := 0; response := Failure (Exception "Throttling") |} |}.

(** A statistics request as the object [o] makes them: a period of 60
    seconds, the window and the namespace of [o], and a dimension filter
    unless the dimension key is ["MetricName"]. *)
Definition request_of_object (o : MetricGrabber) (r : StatRequest) : Prop :=
  sr_period r = 60
  ∧ sr_start_time r = startTime o
  ∧ sr_end_time r = endTime o
  ∧ sr_namespace r = namespace o
  ∧ (sr_dimensions r = None ↔ attribute o = Some "MetricName")
  ∧ (∀ k inst, sr_dimensions r = Some (k, inst) -> k = attribute o ∧ inst ≠ []).

Definition is_alarm_event (e : Event) : Prop :=
  is_print e ∨ ∃ r, e = EvDescribeAlarmHistory r.

Definition is_metric_event (e : Event) : Prop :=
  is_print e ∨ is_sleep e ∨ (∃ a, e = EvListMetrics a)
  ∨ ∃ r, e = EvGetMetricStatistics r.

(** The requests for the alarm history of a run, in order. *)
Definition alarm_requests (evs : list Event) : list AlarmRequest :=
  omap (fun e => match e with EvDescribeAlarmHistory r => Some r | _ => None end) evs.

(** The six lines printed for an alarm. *)
Definition alarm_block (a : AlarmHistoryItem) : list Line :=
  [Text "";
   Text ("Alarm Name: " +:+ alarm_name a +:+ " -- Item Type: " +:+ tem_type a);
   Text (ljust 35 "Timestamp-UTC" +:+ ljust 35 "Timestamp-Local" +:+ " Summary");
   AlarmRow (alarm_timestamp a) (summary a);
   Text ("Raw Data: " +:+ data a);
   Text ""].

(** The request for a page of the alarm history of the window of [o]. *)
Definition alarm_request (o : MetricGrabber) (token : option string) : AlarmRequest :=
  {| ar_start_date := startTime o; ar_end_date := endTime o; ar_next_token := token |}.

(** The pages of the alarm history of the window of [o], as [page_chain]
    has those of a listing. *)
Inductive alarm_chain (cw : Cloudwatch) (o : MetricGrabber)
  : AlarmPage -> list AlarmPage -> Prop :=
| alarm_chain_last (p : AlarmPage) :
    truthy (alarms_next_token p) = false ->
    alarm_chain cw o p []
| alarm_chain_next (p q : AlarmPage) (rest : list AlarmPage) :
    truthy (alarms_next_token p) = true ->
    response (describe_alarm_history cw (alarm_request o (alarms_next_token p)))
      = Success q ->
    alarm_chain cw o q rest ->
    alarm_chain cw o p (q :: rest).

Definition example_alarm (n : string) (ts : datetime) : AlarmHistoryItem :=
  {| alarm_name := n; tem_type := "StateUpdate"; alarm_timestamp := ts;
     summary := "Alarm updated from OK to ALARM"; data := "{}" |}.

Definition alarm_page1 : AlarmPage :=
  {| alarms_items := [example_alarm "cpu-high" example_midnight];
     alarms_next_token := Some "more" |}.

Definition alarm_page2 : AlarmPage :=
  {| alarms_items := [example_alarm "disk-full" (example_midnight + 60 * usec_per_sec)];
     alarms_next_token := None |}.

Definition alarm_cloudwatch : Cloudwatch :=
  {| list_metrics := list_metrics example_cloudwatch;
     get_metric_statistics := get_metric_statistics example_cloudwatch;
     describe_alarm_history := fun r =>
       {| elapsed := 100000;
          response := Success (if decide (ar_next_token r = Some "more")
                               then alarm_page2 else alarm_page1) |} |}.

Definition alarm_state : State :=
  upd (set_cloudwatch (Some alarm_cloudwatch)) (example_ready []).

(** * Properties *)

(** ** The Python primitives on small inputs *)

Example isdigit_300 : isdigit "300" = true.
Proof. reflexivity. Qed.

Example isdigit_neg : isdigit "-5" = false.
Proof. reflexivity. Qed.

Example isdigit_empty : isdigit "" = false.
Proof. reflexivity. Qed.

Example int_300 : int "300" = Ok 300.
Proof. reflexivity. Qed.

Example int_neg : int "-5" = Ok (-5).
Proof. reflexivity. Qed.

Example int_spaces : int " 12 " = Ok 12.
Proof. reflexivity. Qed.

Example int_region : int "us-west-2" = Raise ValueError.
Proof. reflexivity. Qed.

Example partition_metric : partition ":" "Metric:CPU:x" = ("Metric", ":", "CPU:x").
Proof. reflexivity. Qed.

Example partition_absent : partition ":" "abc" = ("abc", "", "").
Proof. reflexivity. Qed.

Example ljust_5 : ljust 5 "ab" = "ab   ".
Proof. reflexivity. Qed.

(** ** Running the monad *)

Lemma run_bind {A B : Type} (m : M A) (f : A -> M B) (s : State) :
  (m ≫= f) s =
  match m s with
  | (Ok a, s1, t1) => let '(r, s2, t2) := f a s1 in (r, s2, (t1 ++ t2)%list)
  | (Raise e, s1, t1) => (Raise e, s1, t1)
  | (OutOfFuel, s1, t1) => (OutOfFuel, s1, t1)
  end.
Proof. reflexivity. Qed.

Lemma run_bind_ok {A B : Type} (m : M A) (f : A -> M B) (s s1 : State) a t1 :
  m s = (Ok a, s1, t1) ->
  (m ≫= f) s = (outcome_of (f a s1), state_of (f a s1), (t1 ++ events_of (f a s1))%list).
Proof.
  intros E. rewrite run_bind, E. by destruct (f a s1) as [[r s2] t2].
Qed.

Lemma run_bind_raise {A B : Type} (m : M A) (f : A -> M B) (s s1 : State) e t1 :
  m s = (Raise e, s1, t1) -> (m ≫= f) s = (Raise e, s1, t1).
Proof. intros E. by rewrite run_bind, E. Qed.

Lemma run_eta {A : Type} (r : Run A) : r = (outcome_of r, state_of r, events_of r).
Proof. by destruct r as [[? ?] ?]. Qed.

(** ** Invariants of a computation

    [respects R P m]: every run of [m] takes a state to an [R]-related one
    and logs only events that satisfy [P]. *)

Section Respects.

Context (R : relation State) `{!PreOrder R} (P : Event -> Prop).

Definition respects {A : Type} (m : M A) : Prop :=
  ∀ s, R s (state_of (m s)) ∧ Forall P (events_of (m s)).

Lemma respects_ret {A : Type} (a : A) : respects (mret a).
Proof. intros s. split; [reflexivity | constructor]. Qed.

Lemma respects_ret' {A : Type} (a : A) : respects (ret a).
Proof. apply respects_ret. Qed.

Lemma respects_raise {A : Type} (e : exn) : respects (@raise A e).
Proof. intros s. split; [reflexivity | constructor]. Qed.

Lemma respects_out_of_fuel {A : Type} : respects (@out_of_fuel A).
Proof. intros s. split; [reflexivity | constructor]. Qed.

Lemma respects_lift {A : Type} (r : Outcome A) : respects (lift r).
Proof. intros s. split; [reflexivity | constructor]. Qed.

Lemma respects_read_self : respects read_self.
Proof. intros s. split; [reflexivity | constructor]. Qed.

Lemma respects_utcnow : respects utcnow.
Proof. intros s. split; [reflexivity | constructor]. Qed.

Lemma respects_now env : respects (now env).
Proof. intros s. split; [reflexivity | constructor]. Qed.

Lemma respects_emit ev : P ev -> respects (emit ev).
Proof. intros H s. split; [reflexivity | by repeat constructor]. Qed.

Lemma respects_bind {A B : Type} (m : M A) (f : A -> M B) :
  respects m -> (∀ a, respects (f a)) -> respects (m ≫= f).
Proof.
  intros Hm Hf s. rewrite run_bind.
  destruct (Hm s) as [HR HP]. destruct (m s) as [[[a | e |] s1] t1]; simpl in *.
  - destruct (Hf a s1) as [HR' HP']. destruct (f a s1) as [[r s2] t2]; simpl in *.
    split; [by etrans | by apply Forall_app].
  - done.
  - done.
Qed.

Lemma respects_for_each {A : Type} (l : list A) (body : A -> M unit) :
  (∀ x, respects (body x)) -> respects (for_each l body).
Proof.
  intros Hb. induction l as [| x l IH]; simpl.
  - apply respects_ret.
  - apply respects_bind; [apply Hb | intros _; apply IH].
Qed.

Lemma respects_assign (g : MetricGrabber -> MetricGrabber) :
  (∀ s, R s {| self := g (self s); clock := clock s; stdin := stdin s |}) ->
  respects (assign g).
Proof. intros H s. split; [apply H | constructor]. Qed.

Lemma respects_advance (d : Z) :
  (∀ s, R s {| self := self s; clock := clock s + d; stdin := stdin s |}) ->
  respects (advance d).
Proof. intros H s. split; [apply H | constructor]. Qed.

End Respects.

(** ** The rate limit (lines 104 to 109) *)

Lemma throttle_meets_contract (env : Env) (s : State) :
  0 <= secondsToSleep (self s) ->
  throttle env s = throttle_contract env s.
Proof.
  intros Hd. destruct s as [o c i]. destruct o. simpl in Hd.
  unfold throttle, throttle_contract.
  unfold mbind, M_bind, bind, assign, read_self, now; simpl.
  case_decide as H.
  - destruct H as [H1 H2].
    rewrite (proj2 (Z.ltb_lt _ _) H1), (proj2 (Z.ltb_lt _ _) H2). simpl.
    unfold sleep. rewrite (proj2 (Z.ltb_ge _ _) Hd).
    unfold mbind, M_bind, bind, emit, advance; simpl.
    do 3 f_equal. unfold set_requestDateCounter, set_totalRequests; simpl. f_equal. lia.
  - assert ((c + utcoffset env <? requestDateCounter0)
            && (maxRequestsPerTimePeriod0 <? totalRequests0 + 1) = false) as ->; [|done].
    apply andb_false_iff. rewrite !Z.ltb_ge. lia.
Qed.

Lemma throttle_quiet (env : Env) (s : State) :
  0 <= secondsToSleep (self s) ->
  requestDateCounter (self s) <= local_now env s
  ∨ totalRequests (self s) + 1 <= maxRequestsPerTimePeriod (self s) ->
  throttle env s = (Ok tt, count_request s, []).
Proof.
  intros Hd H. rewrite throttle_meets_contract by done.
  unfold throttle_contract, local_now in *. case_decide; [lia | done].
Qed.

Lemma throttle_calls_cons (env : Env) (g : N) (gaps : list N) (s : State) :
  throttle_calls env (g :: gaps) s =
  (throttle env ≫= λ _, throttle_calls env gaps) (tick (Z.of_N g) s).
Proof.
  simpl. rewrite run_bind. unfold advance. fold (tick (Z.of_N g) s).
  by destruct ((throttle env ≫= λ _, throttle_calls env gaps) _) as [[? ?] ?].
Qed.

(** Once the deadline has passed (at the latest when the next call is
    made), no call sleeps any more and the count only grows. *)
Lemma throttle_calls_after_deadline (env : Env) (gaps : list N) (s : State) :
  0 <= secondsToSleep (self s) ->
  requestDateCounter (self s) <= local_now env s + Z.of_N (hd 0%N gaps) ->
  ∃ s', throttle_calls env gaps s = (Ok tt, s', [])
        ∧ totalRequests (self s') = totalRequests (self s) + Z.of_nat (length gaps)
        ∧ requestDateCounter (self s') = requestDateCounter (self s).
Proof.
  revert s. induction gaps as [| g gaps IH]; intros s Hd Hw.
  - exists s. simpl. split; [done | split; [lia | done]].
  - rewrite throttle_calls_cons.
    assert (throttle env (tick (Z.of_N g) s)
            = (Ok tt, count_request (tick (Z.of_N g) s), [])) as E.
    { apply throttle_quiet; [done |]. left. unfold local_now in *. simpl in *. lia. }
    rewrite (run_bind_ok _ _ _ _ _ _ E).
    destruct (IH (count_request (tick (Z.of_N g) s))) as (s' & E' & Hc & Hr).
    { by destruct s as [[] ? ?]. }
    { destruct s as [[] ? ?]. unfold local_now in *. simpl in *. lia. }
    exists s'. rewrite E'. split; [done |].
    destruct s as [[] ? ?]. simpl in *. split; [lia | done].
Qed.

Lemma throttle_sleeps (env : Env) (s : State) :
  0 <= secondsToSleep (self s) ->
  local_now env s < requestDateCounter (self s) ->
  maxRequestsPerTimePeriod (self s) < totalRequests (self s) + 1 ->
  throttle env s = (Ok tt, after_sleep env s, [EvSleep (secondsToSleep (self s))]).
Proof.
  intros Hd Ht Hc. rewrite throttle_meets_contract by done.
  unfold throttle_contract, local_now in *. case_decide; [done | lia].
Qed.

(** Calls that all fall before the deadline: the one that takes the count
    over the allowance sleeps, the ones before it do not. *)
Lemma throttle_calls_burst (env : Env) (gaps : list N) (s : State) :
  0 <= secondsToSleep (self s) ->
  gaps ≠ [] ->
  totalRequests (self s) + Z.of_nat (length gaps)
    = maxRequestsPerTimePeriod (self s) + 1 ->
  local_now env s + total_gap gaps < requestDateCounter (self s) ->
  sleeps (events_of (throttle_calls env gaps s)) = [secondsToSleep (self s)].
Proof.
  revert s. induction gaps as [| g gaps IH]; intros s Hd Hne Hlen Ht; [done |].
  rewrite throttle_calls_cons.
  destruct gaps as [| g' gaps].
  - assert (throttle env (tick (Z.of_N g) s)
            = (Ok tt, after_sleep env (tick (Z.of_N g) s),
               [EvSleep (secondsToSleep (self s))])) as E.
    { apply (throttle_sleeps env (tick (Z.of_N g) s)); [done | |].
      - unfold local_now in *. simpl in *. lia.
      - simpl in *. lia. }
    by rewrite (run_bind_ok _ _ _ _ _ _ E).
  - assert (throttle env (tick (Z.of_N g) s)
            = (Ok tt, count_request (tick (Z.of_N g) s), [])) as E.
    { apply throttle_quiet; [done |]. right. simpl in *. lia. }
    rewrite (run_bind_ok _ _ _ _ _ _ E). unfold events_of at 1. cbn [snd app].
    rewrite IH.
    + by destruct s as [[] ? ?].
    + by destruct s as [[] ? ?].
    + done.
    + destruct s as [[] ? ?]. simpl in *. lia.
    + destruct s as [[] ? ?]. unfold local_now in *. simpl in *. lia.
Qed.

(** Calls more than the sleeping time apart: the first is within the
    allowance, the later ones come after the deadline. *)
Lemma throttle_calls_spaced (env : Env) (g : N) (gaps : list N) (s : State) :
  0 <= secondsToSleep (self s) ->
  totalRequests (self s) = 0 ->
  1 <= maxRequestsPerTimePeriod (self s) ->
  requestDateCounter (self s)
    <= local_now env s + secondsToSleep (self s) * usec_per_sec ->
  Forall (fun g' => secondsToSleep (self s) * usec_per_sec < Z.of_N g') gaps ->
  sleeps (events_of (throttle_calls env (g :: gaps) s)) = [].
Proof.
  intros Hd Hc Hm Hw Hg. rewrite throttle_calls_cons.
  assert (throttle env (tick (Z.of_N g) s)
          = (Ok tt, count_request (tick (Z.of_N g) s), [])) as E.
  { apply throttle_quiet; [done |]. right. simpl. lia. }
  rewrite (run_bind_ok _ _ _ _ _ _ E).
  destruct gaps as [| g' gaps]; [done |].
  apply Forall_cons in Hg as [Hg' _].
  destruct (throttle_calls_after_deadline env (g' :: gaps)
              (count_request (tick (Z.of_N g) s))) as (s' & E' & _).
  { by destruct s as [[] ? ?]. }
  { destruct s as [[] ? ?]. unfold local_now in *. simpl in *. lia. }
  by rewrite E'.
Qed.

(** ** A concrete service, environment and state, for the examples *)

Example example_init_ok : outcome_of (__init__ (example_env []) example_start) = Ok tt.
Proof. vm_compute. reflexivity. Qed.

Example example_init_limiter :
  let o := self (example_ready []) in
  totalRequests o = 0 ∧ maxRequestsPerTimePeriod o = 2 ∧ secondsToSleep o = 1
  ∧ requestDateCounter o
    = local_now (example_env []) (example_ready []) + 1 * usec_per_sec.
Proof. vm_compute. done. Qed.

(** C1. The rate limit of [printMetrics] meets its contract on every call:
    the request is counted; before the deadline and over the allowance the
    thread sleeps for [secondsToSleep], the count returns to 0 and the
    deadline becomes the time after the sleep plus [secondsToSleep]; in every
    other case nothing sleeps and count and deadline stay as they are after
    the increment. From a fresh window, one call more than the allowance,
    all before the deadline, sleeps (once, for [secondsToSleep]); calls more
    than [secondsToSleep] apart never sleep. *)
Theorem throttle_rate_limit (env : Env) :
  (∀ s, 0 <= secondsToSleep (self s) -> throttle env s = throttle_contract env s)
  ∧ (∀ s gaps,
       0 <= secondsToSleep (self s) ->
       0 <= maxRequestsPerTimePeriod (self s) ->
       totalRequests (self s) = 0 ->
       Z.of_nat (length gaps) = maxRequestsPerTimePeriod (self s) + 1 ->
       local_now env s + total_gap gaps < requestDateCounter (self s) ->
       sleeps (events_of (throttle_calls env gaps s)) = [secondsToSleep (self s)])
  ∧ (∀ s g gaps,
       0 <= secondsToSleep (self s) ->
       1 <= maxRequestsPerTimePeriod (self s) ->
       totalRequests (self s) = 0 ->
       requestDateCounter (self s)
         <= local_now env s + secondsToSleep (self s) * usec_per_sec ->
       Forall (fun g' => secondsToSleep (self s) * usec_per_sec < Z.of_N g') gaps ->
       sleeps (events_of (throttle_calls env (g :: gaps) s)) = []).
Proof.
  split; [| split].
  - intros s Hd. by apply throttle_meets_contract.
  - intros s gaps Hd Hm Hc Hlen Ht. apply throttle_calls_burst; try done.
    + intros ->. simpl in Hlen. lia.
    + lia.
  - intros s g gaps Hd Hm Hc Hw Hg. by apply throttle_calls_spaced.
Qed.

Lemma throttle_rate_limit_witness :
  let env := example_env [] in
  let s := example_ready [] in
  throttle env s = throttle_contract env s
  ∧ sleeps (events_of (throttle_calls env [100000; 200000; 300000]%N s)) = [1]
  ∧ sleeps (events_of (throttle_calls env [100000; 1000001; 1000001]%N s)) = [].
Proof.
  intros env s.
  destruct (throttle_rate_limit env) as (Hstep & Hburst & Hspaced).
  split; [| split].
  - apply Hstep. vm_compute. discriminate.
  - apply (Hburst s [100000; 200000; 300000]%N);
      vm_compute; first [reflexivity | discriminate].
  - apply (Hspaced s 100000%N [1000001; 1000001]%N);
      try (vm_compute; first [reflexivity | discriminate]).
    repeat constructor.
Defined.

(** ** Strings of digits *)

Lemma is_digit_not_whitespace (c : ascii) : is_digit c = true -> is_whitespace c = false.
Proof.
  unfold is_digit, is_whitespace. intros H.
  apply andb_true_iff in H as [H1 H2].
  apply N.leb_le in H1. apply N.leb_le in H2.
  apply orb_false_iff. split.
  - apply N.eqb_neq. lia.
  - apply andb_false_iff. right. apply N.leb_gt. lia.
Qed.

Lemma lstrip_digits (s : string) : all_digits s = true -> lstrip s = s.
Proof.
  destruct s as [| c s]; [done |]. simpl. intros H.
  apply andb_true_iff in H as [H _]. by rewrite (is_digit_not_whitespace c H).
Qed.

Lemma rstrip_digits (s : string) : all_digits s = true -> rstrip s = s.
Proof.
  induction s as [| c s IH]; [done |]. simpl. intros H.
  apply andb_true_iff in H as [Hc Hs]. rewrite (IH Hs).
  destruct s; [| done]. by rewrite (is_digit_not_whitespace c Hc).
Qed.

Lemma digit_value_range (c : ascii) : is_digit c = true -> 0 <= digit_value c <= 9.
Proof.
  unfold is_digit, digit_value. intros H.
  apply andb_true_iff in H as [H1 H2].
  apply N.leb_le in H1. apply N.leb_le in H2. lia.
Qed.

Lemma digits_value_nonneg (s : string) (acc : Z) :
  all_digits s = true -> 0 <= acc -> 0 <= digits_value acc s.
Proof.
  revert acc. induction s as [| c s IH]; intros acc H Hacc; [done |].
  simpl in *. apply andb_true_iff in H as [Hc Hs].
  apply IH; [done |]. pose proof (digit_value_range c Hc). lia.
Qed.

(** On a string of digits [int] cannot fail, and the value is not
    negative. *)
Lemma int_isdigit (s : string) :
  isdigit s = true -> int s = Ok (digits_value 0 s).
Proof.
  destruct s as [| c s]; [done |]. unfold isdigit. intros H.
  unfold int, strip. rewrite (lstrip_digits _ H), (rstrip_digits _ H).
  assert (isdigit (String c s) = true) as Hd by done.
  simpl in H. apply andb_true_iff in H as [Hc _].
  destruct c as [[] [] [] [] [] [] [] []]; try discriminate; by rewrite Hd.
Qed.

Lemma isdigit_nonneg (s : string) : isdigit s = true -> 0 <= digits_value 0 s.
Proof.
  intros H. apply digits_value_nonneg; [| done]. by destruct s.
Qed.

(** ** The resolver of the time window and the region (lines 39 to 57) *)

Lemma seconds_before_run (t : datetime) (n : Z) (s : State) :
  seconds_before t n s
  = (if in_range t n then Ok (t - n * usec_per_sec) else Raise OverflowError, s, []).
Proof.
  unfold seconds_before, in_range, timedelta, datetime_sub, lift.
  rewrite run_bind.
  destruct (999999999 <? Z.abs (n / sec_per_day)); simpl; [done |].
  by destruct (representable (t - n * usec_per_sec)).
Qed.

#[local] Opaque seconds_before.

Ltac run_resolver :=
  unfold resolve, parse_argv, mbind, M_bind, bind, utcnow, assign, read_self, lift;
  simpl.

Lemma resolve_ok (env : Env) (s : State) (reg : string) (n : Z) :
  choose (sys_argv env) = Ok (reg, n) ->
  in_range (clock s) n = true ->
  resolve env s = (Ok tt, placed s reg n, []).
Proof.
  intros Hc Hr. destruct s as [o c i]. unfold placed. simpl in *.
  run_resolver. unfold choose in Hc.
  destruct (sys_argv env) as [| p [| a1 [| a2 [| a3 l]]]]; simpl.
  -  injection Hc as <- <-. by rewrite seconds_before_run, Hr.
  - injection Hc as <- <-. by rewrite seconds_before_run, Hr.
  - destruct (isdigit a1); simpl.
    + destruct (int a1) as [m | e |]; simplify_eq. simpl.
      by rewrite seconds_before_run, Hr.
    + simplify_eq. by rewrite seconds_before_run, Hr.
  - destruct (isdigit a1); simpl.
    + destruct (int a1) as [m | e |]; simplify_eq. simpl.
      by rewrite seconds_before_run, Hr.
    + destruct (int a2) as [m | e |]; simplify_eq. simpl.
      by rewrite seconds_before_run, Hr.
  - injection Hc as <- <-. by rewrite seconds_before_run, Hr.
Qed.

Lemma resolve_outcome (env : Env) (s : State) :
  outcome_of (resolve env s)
  = match choose (sys_argv env) with
    | Ok (_, n) => if in_range (clock s) n then Ok tt else Raise OverflowError
    | Raise e => Raise e
    | OutOfFuel => OutOfFuel
    end.
Proof.
  destruct (choose (sys_argv env)) as [[reg n] | e |] eqn:Hc.
  - destruct (in_range (clock s) n) eqn:Hr.
    + by rewrite (resolve_ok env s reg n).
    + destruct s as [o c i]. simpl in *. run_resolver. unfold choose in Hc.
      destruct (sys_argv env) as [| p [| a1 [| a2 [| a3 l]]]]; simpl.
      * injection Hc as <- <-. by rewrite seconds_before_run, Hr.
      * injection Hc as <- <-. by rewrite seconds_before_run, Hr.
      * destruct (isdigit a1); simpl.
        -- destruct (int a1) as [m | e |]; simplify_eq. simpl.
           by rewrite seconds_before_run, Hr.
        -- simplify_eq. by rewrite seconds_before_run, Hr.
      * destruct (isdigit a1); simpl.
        -- destruct (int a1) as [m | e |]; simplify_eq. simpl.
           by rewrite seconds_before_run, Hr.
        -- destruct (int a2) as [m | e |]; simplify_eq. simpl.
           by rewrite seconds_before_run, Hr.
      * injection Hc as <- <-. by rewrite seconds_before_run, Hr.
  - destruct s as [o c i]. run_resolver. unfold choose in Hc.
    destruct (sys_argv env) as [| p [| a1 [| a2 [| a3 l]]]]; simpl; try done.
    + destruct (isdigit a1); simpl; [| done].
      by destruct (int a1) as [m | e' |]; simplify_eq.
    + destruct (isdigit a1); simpl.
      * by destruct (int a1) as [m | e' |]; simplify_eq.
      * by destruct (int a2) as [m | e' |]; simplify_eq.
  - destruct s as [o c i]. run_resolver. unfold choose in Hc.
    destruct (sys_argv env) as [| p [| a1 [| a2 [| a3 l]]]]; simpl; try done.
    + destruct (isdigit a1); simpl; [| done].
      by destruct (int a1) as [m | e' |]; simplify_eq.
    + destruct (isdigit a1); simpl.
      * by destruct (int a1) as [m | e' |]; simplify_eq.
      * by destruct (int a2) as [m | e' |]; simplify_eq.
Qed.

#[export] Instance same_on_preorder {X : Type} (f : MetricGrabber -> X) :
  PreOrder (same_on f).
Proof.
  split.
  - by intros s.
  - intros s1 s2 s3 H12 H23. unfold same_on in *. congruence.
Qed.

Ltac respects_rule :=
  lazymatch goal with
  | |- respects _ _ (mbind _ _) => apply respects_bind
  | |- respects _ _ (mret _) => apply respects_ret
  | |- respects _ _ (ret _) => apply respects_ret'
  | |- respects _ _ (raise _) => apply respects_raise
  | |- respects _ _ out_of_fuel => apply respects_out_of_fuel
  | |- respects _ _ (lift _) => apply respects_lift
  | |- respects _ _ read_self => apply respects_read_self
  | |- respects _ _ utcnow => apply respects_utcnow
  | |- respects _ _ (now _) => apply respects_now
  | |- respects _ _ (emit _) => apply respects_emit
  | |- respects _ _ (print _) => apply respects_emit
  | |- respects _ _ (assign _) => apply respects_assign
  | |- respects _ _ (advance _) => apply respects_advance
  | |- respects _ _ (for_each _ _) => apply respects_for_each
  | |- respects _ _ (match ?x with _ => _ end) => destruct x
  end.

Ltac respects_step :=
  respects_rule;
  lazymatch goal with
  | |- PreOrder _ => exact _
  | |- ∀ _, _ => intros ?
  | _ => idtac
  end.

(** *** Computations that touch only the rate limit and the clock *)

Section Frame.

Context (R : relation State) `{!PreOrder R} (P : Event -> Prop).

Hypothesis R_count : ∀ s v, R s (upd (set_totalRequests v) s).
Hypothesis R_deadline : ∀ s v, R s (upd (set_requestDateCounter v) s).
Hypothesis R_clock : ∀ s d, R s (tick d s).
Hypothesis P_sleep : ∀ d, P (EvSleep d).
Hypothesis P_print : ∀ l, P (EvPrint l).
Hypothesis P_stat : ∀ r, P (EvGetMetricStatistics r).

Lemma sleep_respects (d : Z) : respects R P (sleep d).
Proof. unfold sleep. repeat respects_step; first [apply P_sleep | apply R_clock]. Qed.

Lemma call_respects {A : Type} (ev : Event) (r : Reply A) :
  P ev -> respects R P (call ev r).
Proof. intros H. unfold call. repeat respects_step; first [done | apply R_clock]. Qed.

Lemma connection_respects : respects R P connection.
Proof. unfold connection. repeat respects_step. Qed.

Lemma throttle_respects (env : Env) : respects R P (throttle env).
Proof.
  unfold throttle. repeat respects_step;
    first [apply R_count | apply R_deadline | apply sleep_respects].
Qed.

Lemma row_cells_respects (v : DataPoint) (stats : list string) (tmp : string) :
  respects R P (row_cells v stats tmp).
Proof.
  revert tmp. induction stats as [| stat rest IH]; intros tmp; simpl.
  - respects_step.
  - destruct (fields v !! stat); [apply IH | respects_step].
Qed.

Lemma print_datapoint_respects o inst metricName i v :
  respects R P (print_datapoint o inst metricName i v).
Proof.
  unfold print_datapoint, first_of.
  repeat respects_step; first [apply P_print | apply row_cells_respects].
Qed.

Lemma printMetrics_respects (env : Env) inst i : respects R P (printMetrics env inst i).
Proof.
  unfold printMetrics. destruct inst; [| respects_step].
  repeat respects_step;
    first [apply throttle_respects | apply connection_respects
          | apply call_respects, P_stat | apply print_datapoint_respects].
Qed.

Lemma process_item_respects (env : Env) i : respects R P (process_item env i).
Proof.
  unfold process_item. repeat respects_step; apply printMetrics_respects.
Qed.

Hypothesis P_list : ∀ a, P (EvListMetrics a).

Lemma grabMetrics_loop_respects (env : Env) (fuel : nat) (p : MetricPage) :
  respects R P (grabMetrics_loop env fuel p).
Proof.
  revert p. induction fuel as [| fuel IH]; intros p; simpl.
  - respects_step.
  - repeat respects_step;
      first [apply process_item_respects | apply connection_respects
            | apply call_respects, P_list | apply IH].
Qed.

Lemma grabMetrics_respects (env : Env) (fuel : nat) : respects R P (grabMetrics env fuel).
Proof.
  unfold grabMetrics. repeat respects_step;
    first [apply connection_respects | apply call_respects, P_list
          | apply grabMetrics_loop_respects].
Qed.

End Frame.

Lemma in_range_nonneg (t : datetime) (n : Z) :
  0 <= n ->
  representable t = true ->
  representable (t - n * usec_per_sec) = true ->
  in_range t n = true.
Proof.
  unfold in_range, representable, datetime_max, sec_per_day, usec_per_sec.
  intros Hn Ht Hs. rewrite Hs, andb_true_r.
  apply andb_true_iff in Ht as [_ Ht%Z.leb_le].
  apply andb_true_iff in Hs as [Hs%Z.leb_le _].
  apply negb_true_iff, Z.ltb_ge.
  assert (0 <= n / 86400) by (apply Z.div_pos; lia).
  assert (n / 86400 < 3652059) by (apply Z.div_lt_upper_bound; lia).
  lia.
Qed.

Lemma in_range_300 (t : datetime) :
  representable (t - 300 * usec_per_sec) = true -> in_range t 300 = true.
Proof. unfold in_range. by intros ->. Qed.

(** C4, as amended. For the argument shapes the interface lists, and
    whenever the current time and the start of the window are representable
    datetimes, the resolver returns with exactly the region and the window
    of the mapping: no token gives "us-east-1" and the last 300 seconds, one
    string of digits N gives "us-east-1" and the last N seconds, one other
    token R gives region R and the last 300 seconds, two tokens of which
    exactly one is a string of digits give that many seconds and the other
    token as region, in either order. *)
Theorem resolve_meets_contract (env : Env) (s : State) (prog : string)
    (tokens : list string) (reg : string) (start stop : datetime) :
  sys_argv env = prog :: tokens ->
  resolver_contract tokens (clock s) = Some (reg, start, stop) ->
  representable (clock s) = true ->
  representable start = true ->
  resolve env s
  = (Ok tt,
     upd (fun o => set_region reg (set_startTime start (set_endTime stop o))) s,
     []).
Proof.
  intros Hargv Hc Hnow Hstart.
  assert (∃ n, choose (sys_argv env) = Ok (reg, n)
               ∧ start = clock s - n * usec_per_sec ∧ stop = clock s
               ∧ 0 <= n) as (n & Hch & -> & -> & Hn).
  { rewrite Hargv. unfold resolver_contract in Hc. unfold choose.
    destruct tokens as [| a [| b [| c l]]].
    - exists 300. by simplify_eq.
    - destruct (isdigit a) eqn:Ha; simplify_eq.
      + exists (digits_value 0 a). rewrite (int_isdigit a Ha).
        by split_and!; try apply isdigit_nonneg.
      + by exists 300.
    - destruct (isdigit a) eqn:Ha, (isdigit b) eqn:Hb; simplify_eq/=.
      + exists (digits_value 0 a). rewrite (int_isdigit a Ha).
        by split_and!; try apply isdigit_nonneg.
      + exists (digits_value 0 b). rewrite (int_isdigit b Hb).
        by split_and!; try apply isdigit_nonneg.
    - done. }
  rewrite (resolve_ok env s reg n Hch); [done |].
  by apply in_range_nonneg.
Qed.

Lemma resolve_meets_contract_witness :
  let env := example_env ["us-west-2"; "120"] in
  state_of (resolve env example_start)
  = upd (fun o => set_region "us-west-2"
                    (set_startTime (example_midnight + 180 * usec_per_sec)
                       (set_endTime (example_midnight + 300 * usec_per_sec) o)))
        example_start.
Proof.
  intros env.
  rewrite (resolve_meets_contract env example_start "MetricGrabber.py"
             ["us-west-2"; "120"] "us-west-2"
             (example_midnight + 180 * usec_per_sec)
             (example_midnight + 300 * usec_per_sec));
    reflexivity.
Defined.

(** C4 as stated fails: a string of digits is a valid look-back, yet for one
    that reaches before [datetime.min] the subtraction overflows and no
    (region, window) is produced. *)
Lemma resolve_overflow_counterexample :
  let env := example_env ["999999999999"] in
  is_Some (resolver_contract ["999999999999"] (clock example_start))
  ∧ outcome_of (resolve env example_start) = Raise OverflowError.
Proof. split; [by eexists | by vm_compute]. Qed.

(** C3, as amended. With three or more tokens the resolver does not fail:
    it ignores the tokens and returns with region "us-east-1" and the
    last 300 seconds as window (provided that start is a representable
    datetime). *)
Theorem resolve_other_arity (env : Env) (s : State) (prog : string)
    (tokens : list string) :
  sys_argv env = prog :: tokens ->
  (3 <= length tokens)%nat ->
  representable (clock s - 300 * usec_per_sec) = true ->
  resolve env s = (Ok tt, placed s "us-east-1" 300, []).
Proof.
  intros Hargv Hlen Hr. apply resolve_ok; [| by apply in_range_300].
  rewrite Hargv. destruct tokens as [| a [| b [| c l]]]; simpl in Hlen; try lia.
  done.
Qed.

Lemma resolve_other_arity_witness :
  let env := example_env ["us-west-2"; "120"; "extra"] in
  resolve env example_start = (Ok tt, placed example_start "us-east-1" 300, []).
Proof.
  intros env.
  apply (resolve_other_arity env example_start "MetricGrabber.py"
           ["us-west-2"; "120"; "extra"]).
  - reflexivity.
  - simpl. lia.
  - reflexivity.
Defined.

(** C3 as stated fails: three tokens are accepted, no error is raised. *)
Lemma resolve_three_tokens_counterexample :
  let env := example_env ["us-west-2"; "120"; "extra"] in
  let r := resolve env example_start in
  outcome_of r = Ok tt
  ∧ region (self (state_of r)) = "us-east-1"
  ∧ (∀ e, outcome_of r ≠ Raise e).
Proof. by vm_compute. Qed.

Lemma int_cases (a : string) : (∃ n, int a = Ok n) ∨ int a = Raise ValueError.
Proof.
  unfold int.
  repeat (match goal with
          | |- context [match ?x with _ => _ end] => destruct x
          end);
    first [by right | left; by eexists].
Qed.

(** C10, as amended. With two tokens the resolver returns without raising
    exactly when the token it converts (the first when that is a string of
    digits, else the second) is accepted by [int] and the look-back it
    denotes can be subtracted from the current time within the range of
    datetimes. When the first token is no string of digits and the second is
    no integer literal, [int] raises [ValueError]; when the first token is
    no string of digits the second is converted whatever it is, so that a
    negative literal is taken as look-back. *)
Theorem resolve_two_tokens (env : Env) (s : State) (prog a1 a2 : string) :
  sys_argv env = [prog; a1; a2] ->
  (outcome_of (resolve env s) = Ok tt
   ↔ (isdigit a1 = true ∧ in_range (clock s) (digits_value 0 a1) = true)
     ∨ (isdigit a1 = false ∧ ∃ n, int a2 = Ok n ∧ in_range (clock s) n = true))
  ∧ (isdigit a1 = false -> ¬ valid_int_literal a2 ->
     outcome_of (resolve env s) = Raise ValueError)
  ∧ (∀ n, isdigit a1 = false -> int a2 = Ok n -> in_range (clock s) n = true ->
     resolve env s = (Ok tt, placed s a1 n, [])).
Proof.
  intros Hargv. split; [| split].
  - rewrite resolve_outcome, Hargv. unfold choose.
    destruct (isdigit a1) eqn:Ha.
    + rewrite (int_isdigit a1 Ha).
      destruct (in_range (clock s) (digits_value 0 a1)); split.
      * intros _. by left.
      * done.
      * done.
      * by intros [[_ ?] | [? _]].
    + destruct (int_cases a2) as [[n Hi] | Hi]; rewrite Hi.
      * destruct (in_range (clock s) n) eqn:Hr; split.
        -- intros _. right. split; [done |]. by exists n.
        -- done.
        -- done.
        -- intros [[? _] | [_ (m & Hm & Hr')]]; [done | congruence].
      * split; [done |]. by intros [[? _] | [_ (m & Hm & _)]].
  - intros Ha Hbad. rewrite resolve_outcome, Hargv. unfold choose. rewrite Ha.
    destruct (int_cases a2) as [[n Hi] | Hi]; rewrite Hi; [| done].
    destruct Hbad. by exists n.
  - intros n Ha Hi Hr. apply resolve_ok; [| done].
    rewrite Hargv. unfold choose. by rewrite Ha, Hi.
Qed.

Lemma resolve_two_tokens_witness :
  let env := example_env ["us-west-2"; "-5"] in
  resolve env example_start = (Ok tt, placed example_start "us-west-2" (-5), []).
Proof.
  intros env.
  destruct (resolve_two_tokens env example_start "MetricGrabber.py" "us-west-2" "-5")
    as (_ & _ & H); [reflexivity |].
  apply (H (-5)); reflexivity.
Defined.

(** C10 as stated fails in one direction: the first token is a string of
    digits, yet the resolver raises, because the look-back reaches before
    [datetime.min]. *)
Lemma resolve_two_tokens_counterexample :
  let env := example_env ["999999999999"; "us-west-2"] in
  isdigit "999999999999" = true
  ∧ outcome_of (resolve env example_start) = Raise OverflowError.
Proof. by vm_compute. Qed.

(** ** The time window is set once *)

Lemma bind_ok_inv {A B : Type} (m : M A) (f : A -> M B) (s : State) (b : B) :
  outcome_of ((m ≫= f) s) = Ok b ->
  ∃ a, outcome_of (m s) = Ok a
       ∧ outcome_of (f a (state_of (m s))) = Ok b
       ∧ state_of ((m ≫= f) s) = state_of (f a (state_of (m s)))
       ∧ events_of ((m ≫= f) s)
         = (events_of (m s) ++ events_of (f a (state_of (m s))))%list.
Proof.
  rewrite run_bind. destruct (m s) as [[[a | e |] s1] t1]; simpl; [| done..].
  unfold outcome_of, state_of, events_of. simpl.
  destruct (f a s1) as [[r s2] t2] eqn:E. simpl. intros ->.
  exists a. by rewrite E.
Qed.

Lemma window_frame_count s v : same_on window s (upd (set_totalRequests v) s).
Proof. by destruct s as [[] ? ?]. Qed.

Lemma window_frame_deadline s v : same_on window s (upd (set_requestDateCounter v) s).
Proof. by destruct s as [[] ? ?]. Qed.

Lemma window_frame_clock s d : same_on window s (tick d s).
Proof. done. Qed.

Lemma readline_keeps_window : respects (same_on window) any_event readline.
Proof. intros s. unfold readline. by destruct (stdin s). Qed.

Lemma getCredentials_keeps_window env k :
  respects (same_on window) any_event (getCredentials env k).
Proof. unfold getCredentials. repeat respects_step; done. Qed.

Lemma grabKeys_keeps_window env : respects (same_on window) any_event (grabKeys env).
Proof.
  unfold grabKeys. repeat respects_step;
    first [ apply readline_keeps_window | apply getCredentials_keeps_window
          | done | by (match goal with s : State |- _ => destruct s as [[] ? ?] end) ].
Qed.

Lemma printMetrics_keeps_window env inst i :
  respects (same_on window) any_event (printMetrics env inst i).
Proof.
  apply printMetrics_respects;
    first [ exact _ | apply window_frame_count | apply window_frame_deadline
          | apply window_frame_clock | done ].
Qed.

Lemma grabMetrics_keeps_window env fuel :
  respects (same_on window) any_event (grabMetrics env fuel).
Proof.
  apply grabMetrics_respects;
    first [ exact _ | apply window_frame_count | apply window_frame_deadline
          | apply window_frame_clock | done ].
Qed.

Lemma grabAlarmHistory_loop_keeps_window fuel p :
  respects (same_on window) any_event (grabAlarmHistory_loop fuel p).
Proof.
  revert p. induction fuel as [| fuel IH]; intros p; simpl.
  - respects_step.
  - unfold print_alarm. repeat respects_step;
      first [ done | apply connection_respects; exact _
            | apply call_respects; first [exact _ | apply window_frame_clock | done]
            | apply IH ].
Qed.

Lemma grabAlarmHistory_keeps_window fuel :
  respects (same_on window) any_event (grabAlarmHistory fuel).
Proof.
  unfold grabAlarmHistory. repeat respects_step;
    first [ apply connection_respects; exact _
          | apply call_respects; first [exact _ | apply window_frame_clock | done]
          | apply grabAlarmHistory_loop_keeps_window ].
Qed.

Lemma connect_keeps_window env fuel ns qt att :
  respects (same_on window) any_event (connect env fuel ns qt att).
Proof.
  unfold connect. repeat respects_step;
    first [ apply grabAlarmHistory_keeps_window | apply grabMetrics_keeps_window
          | by (match goal with s : State |- _ => destruct s as [[] ? ?] end) ].
Qed.

Lemma choose_nonneg (argv : list string) (reg : string) (n : Z) :
  choose argv = Ok (reg, n) ->
  (∀ prog a1 a2 m, argv = [prog; a1; a2] -> isdigit a1 = false ->
                   int a2 = Ok m -> 0 <= m) ->
  0 <= n.
Proof.
  intros Hc Hneg. unfold choose in Hc.
  destruct argv as [| p [| a1 [| a2 [| a3 l]]]]; simplify_eq; try lia.
  - destruct (isdigit a1) eqn:Ha; simplify_eq; [| lia].
    rewrite (int_isdigit a1 Ha) in Hc. simplify_eq. by apply isdigit_nonneg.
  - destruct (isdigit a1) eqn:Ha.
    + rewrite (int_isdigit a1 Ha) in Hc. simplify_eq. by apply isdigit_nonneg.
    + destruct (int a2) as [m | |] eqn:Hi; simplify_eq. by eapply Hneg.
Qed.

Lemma resolve_window_ordered (env : Env) (s : State) :
  outcome_of (resolve env s) = Ok tt ->
  (∀ prog a1 a2 m, sys_argv env = [prog; a1; a2] -> isdigit a1 = false ->
                   int a2 = Ok m -> 0 <= m) ->
  startTime (self (state_of (resolve env s)))
    <= endTime (self (state_of (resolve env s))).
Proof.
  intros Hok Hneg. rewrite resolve_outcome in Hok.
  destruct (choose (sys_argv env)) as [[reg n] | e |] eqn:Hc; [| done..].
  destruct (in_range (clock s) n) eqn:Hr; [| done].
  rewrite (resolve_ok env s reg n Hc Hr).
  pose proof (choose_nonneg _ _ _ Hc Hneg).
  destruct s as [[] ? ?]. cbn -[Z.mul Z.sub]. unfold usec_per_sec. lia.
Qed.

(** C7, as amended. When [__init__] returns and the look-back it converted
    is not negative, the window has start <= end; that is so for every
    accepted input except two tokens of which the first is no string of
    digits and the second a negative integer literal. [startTime] and
    [endTime] are assigned in [__init__] only: no other method of the class
    changes them. *)
Theorem window_set_once (env : Env) :
  (∀ s,
     outcome_of (__init__ env s) = Ok tt ->
     (∀ prog a1 a2 m, sys_argv env = [prog; a1; a2] -> isdigit a1 = false ->
                      int a2 = Ok m -> 0 <= m) ->
     startTime (self (state_of (__init__ env s)))
       <= endTime (self (state_of (__init__ env s))))
  ∧ (∀ s fuel ns qt att,
       window (self (state_of (connect env fuel ns qt att s))) = window (self s))
  ∧ (∀ s fuel, window (self (state_of (grabMetrics env fuel s))) = window (self s))
  ∧ (∀ s fuel, window (self (state_of (grabAlarmHistory fuel s))) = window (self s))
  ∧ (∀ s inst i,
       window (self (state_of (printMetrics env inst i s))) = window (self s))
  ∧ (∀ s, window (self (state_of (grabKeys env s))) = window (self s))
  ∧ (∀ s k, window (self (state_of (getCredentials env k s))) = window (self s)).
Proof.
  split_and!.
  - intros s Hok Hneg. unfold __init__ in *.
    apply bind_ok_inv in Hok as ([] & _ & Hok & -> & _).
    apply bind_ok_inv in Hok as ([] & Hres & _ & -> & _).
    set (s1 := state_of (grabKeys env s)) in *.
    pose proof (resolve_window_ordered env s1 Hres Hneg) as Hord.
    set (s2 := state_of (resolve env s1)) in *.
    exact Hord.
  - intros s fuel ns qt att. apply (connect_keeps_window env fuel ns qt att s).
  - intros s fuel. apply (grabMetrics_keeps_window env fuel s).
  - intros s fuel. apply (grabAlarmHistory_keeps_window fuel s).
  - intros s inst i. apply (printMetrics_keeps_window env inst i s).
  - intros s. apply (grabKeys_keeps_window env s).
  - intros s k. apply (getCredentials_keeps_window env k s).
Qed.

Lemma window_set_once_witness :
  let env := example_env ["us-west-2"; "120"] in
  let s := state_of (__init__ env example_start) in
  startTime (self s) <= endTime (self s)
  ∧ window (self (state_of (connect env 5 (Some "AWS/EC2") None (Some "InstanceId") s)))
    = window (self s).
Proof.
  intros env s.
  destruct (window_set_once env) as (Hord & Hconnect & _).
  split.
  - apply (Hord example_start).
    + vm_compute. reflexivity.
    + intros prog a1 a2 m [= <- <- <-] _ Hi. vm_compute in Hi. by simplify_eq.
  - apply Hconnect.
Defined.

(** C7 as stated fails: the input is accepted, and the window it gives
    starts five seconds after its end. *)
Lemma window_negative_lookback_counterexample :
  let env := example_env ["us-west-2"; "-5"] in
  let r := __init__ env example_start in
  outcome_of r = Ok tt
  ∧ endTime (self (state_of r)) < startTime (self (state_of r)).
Proof. by vm_compute. Qed.

(** C5 (the code departs from the claim). Two seconds after [__init__] the
    deadline of the rate limit has passed. A call made then leaves the count
    at 1 instead of 0, and five calls in a row take the count to 5: none
    sleeps, and the deadline stays where it was, so that the rate limit
    never acts again. *)
Theorem limiter_not_reset_after_deadline :
  let env := example_env [] in
  let s := tick (2 * usec_per_sec) (example_ready []) in
  let r := throttle_calls env [0; 0; 0; 0; 0]%N s in
  requestDateCounter (self s) <= local_now env s
  ∧ totalRequests (self (state_of (throttle env s))) = 1
  ∧ outcome_of r = Ok tt
  ∧ totalRequests (self (state_of r)) = 5
  ∧ requestDateCounter (self (state_of r)) = requestDateCounter (self s)
  ∧ sleeps (events_of r) = [].
Proof. vm_compute. split_and!; first [reflexivity | discriminate]. Qed.

(** ** Events of a run *)

Lemma bind_events {A B : Type} (m : M A) (f : A -> M B) (s : State) :
  events_of ((m ≫= f) s)
  = (events_of (m s)
     ++ match outcome_of (m s) with
        | Ok a => events_of (f a (state_of (m s)))
        | _ => []
        end)%list.
Proof.
  rewrite run_bind. destruct (m s) as [[[a | e |] s1] t1]; simpl.
  - unfold outcome_of, state_of, events_of. simpl. by destruct (f a s1) as [[? ?] ?].
  - unfold events_of. simpl. by rewrite app_nil_r.
  - unfold events_of. simpl. by rewrite app_nil_r.
Qed.

Lemma bind_outcome {A B : Type} (m : M A) (f : A -> M B) (s : State) :
  outcome_of ((m ≫= f) s)
  = match outcome_of (m s) with
    | Ok a => outcome_of (f a (state_of (m s)))
    | Raise e => Raise e
    | OutOfFuel => OutOfFuel
    end.
Proof.
  rewrite run_bind. destruct (m s) as [[[a | e |] s1] t1]; simpl; try done.
  unfold outcome_of, state_of. simpl. by destruct (f a s1) as [[? ?] ?].
Qed.

Lemma bind_state {A B : Type} (m : M A) (f : A -> M B) (s : State) :
  state_of ((m ≫= f) s)
  = match outcome_of (m s) with
    | Ok a => state_of (f a (state_of (m s)))
    | _ => state_of (m s)
    end.
Proof.
  rewrite run_bind. destruct (m s) as [[[a | e |] s1] t1]; simpl; try done.
  unfold outcome_of, state_of. simpl. by destruct (f a s1) as [[? ?] ?].
Qed.

(** ** Sorting by key *)

Lemma insert_by_perm {A : Type} (key : A -> Z) (x : A) (l : list A) :
  insert_by key x l ≡ₚ x :: l.
Proof.
  induction l as [| y l IH]; simpl; [done |].
  destruct (key x <=? key y); [done |]. rewrite IH. apply Permutation_swap.
Qed.

Lemma sorted_perm {A : Type} (key : A -> Z) (l : list A) : sorted key l ≡ₚ l.
Proof.
  induction l as [| x l IH]; simpl; [done |].
  by rewrite insert_by_perm, IH.
Qed.

Lemma insert_by_sorted {A : Type} (key : A -> Z) (x : A) (l : list A) :
  Sorted Z.le (map key l) -> Sorted Z.le (map key (insert_by key x l)).
Proof.
  induction l as [| y l IH]; simpl; intros Hs.
  - repeat constructor.
  - destruct (Z.leb_spec (key x) (key y)); simpl.
    + constructor; [done |]. by constructor.
    + apply Sorted_inv in Hs as [Hs Hhd]. constructor; [by apply IH |].
      destruct l as [| z l]; simpl.
      * constructor. lia.
      * destruct (Z.leb_spec (key x) (key z)); simpl; constructor; [lia |].
        by apply HdRel_inv in Hhd.
Qed.

Lemma sorted_ascending {A : Type} (key : A -> Z) (l : list A) :
  Sorted Z.le (map key (sorted key l)).
Proof.
  induction l as [| x l IH]; simpl; [constructor |]. by apply insert_by_sorted.
Qed.

Lemma Sorted_take (l : list Z) (k : nat) : Sorted Z.le l -> Sorted Z.le (take k l).
Proof.
  revert k. induction l as [| x l IH]; intros k Hs; destruct k; simpl;
    try constructor.
  - apply IH. by apply Sorted_inv in Hs as [? _].
  - apply Sorted_inv in Hs as [_ Hhd]. destruct l, k; simpl; constructor.
    by apply HdRel_inv in Hhd.
Qed.

(** ** What [printMetrics] prints and requests *)

#[export] Instance trivial_frame_preorder : PreOrder trivial_frame.
Proof. by split. Qed.

Lemma sleeps_only (evs : list Event) :
  Forall is_sleep evs ->
  row_timestamps evs = [] ∧ stat_requests evs = [] ∧ list_metrics_calls evs = [].
Proof.
  induction 1 as [| e evs [d ->] _ IH]; [done |]. simpl. apply IH.
Qed.

Lemma prints_only (evs : list Event) :
  Forall is_print evs -> stat_requests evs = [] ∧ list_metrics_calls evs = [].
Proof.
  induction 1 as [| e evs [d ->] _ IH]; [done |]. simpl. apply IH.
Qed.

Lemma throttle_only_sleeps (env : Env) (s : State) :
  Forall is_sleep (events_of (throttle env s)).
Proof.
  apply (throttle_respects trivial_frame is_sleep); try done.
  intros d. by exists d.
Qed.

Lemma row_cells_run (v : DataPoint) (stats : list string) (tmp : string) (s : State) :
  state_of (row_cells v stats tmp s) = s ∧ events_of (row_cells v stats tmp s) = [].
Proof.
  revert tmp. induction stats as [| stat rest IH]; intros tmp; simpl; [done |].
  destruct (fields v !! stat); [apply IH | done].
Qed.

Lemma print_datapoint_only_prints o inst metricName i v s :
  Forall is_print (events_of (print_datapoint o inst metricName i v s)).
Proof.
  apply (print_datapoint_respects trivial_frame is_print).
  intros l. by exists l.
Qed.

Lemma print_datapoint_rows o inst metricName i v s :
  row_timestamps (events_of (print_datapoint o inst metricName i v s))
  = match outcome_of (print_datapoint o inst metricName i v s) with
    | Ok _ => [Timestamp v]
    | _ => []
    end.
Proof.
  unfold print_datapoint, datapoint_truthy, print, first_of.
  destruct inst as [| g inst]; [done |].
  destruct (row_cells_run v (Statistics i) "" s) as [_ Hev].
  repeat (rewrite ?bind_events, ?bind_outcome, ?bind_state; simpl).
  change (state_of (emit _ s)) with s. change (state_of (ret g s)) with s.
  change (state_of (emit _ s)) with s. change (state_of (emit _ s)) with s.
  rewrite Hev.
  by destruct (outcome_of (row_cells v (Statistics i) "" s)).
Qed.

Lemma row_timestamps_app (l1 l2 : list Event) :
  row_timestamps (l1 ++ l2) = (row_timestamps l1 ++ row_timestamps l2)%list.
Proof. apply omap_app. Qed.

Lemma stat_requests_app (l1 l2 : list Event) :
  stat_requests (l1 ++ l2) = (stat_requests l1 ++ stat_requests l2)%list.
Proof. apply omap_app. Qed.

Lemma list_metrics_calls_app (l1 l2 : list Event) :
  list_metrics_calls (l1 ++ l2)
  = (list_metrics_calls l1 ++ list_metrics_calls l2)%list.
Proof. apply omap_app. Qed.

(** The rows of a loop over data points: those of the points reached, all
    of them when the loop returns. *)
Lemma for_each_rows o inst metricName i (l : list DataPoint) (s : State) :
  let r := for_each l (print_datapoint o inst metricName i) s in
  (∃ k, row_timestamps (events_of r) = take k (map Timestamp l))
  ∧ (outcome_of r = Ok tt -> row_timestamps (events_of r) = map Timestamp l).
Proof.
  revert s. induction l as [| v l IH]; intros s; simpl.
  - split; [by exists 0%nat | done].
  - rewrite bind_events, bind_outcome, row_timestamps_app, print_datapoint_rows.
    destruct (outcome_of (print_datapoint o inst metricName i v s)) as [[] | e |].
    + destruct (IH (state_of (print_datapoint o inst metricName i v s)))
        as [[k Hk] Hok].
      split.
      * exists (S k). simpl. by rewrite Hk.
      * intros H. simpl. by rewrite (Hok H).
    + split; [by exists 0%nat | done].
    + split; [by exists 0%nat | done].
Qed.

(** [str(i).partition(":")[2]] is the name of the metric, whatever the name
    holds. *)
Lemma metric_name_partition (i : Metric) : (partition ":" (str_metric i)).2 = name i.
Proof. unfold str_metric. by destruct (name i). Qed.

Lemma settings_frame_count s v : same_on settings s (upd (set_totalRequests v) s).
Proof. by destruct s as [[] ? ?]. Qed.

Lemma settings_frame_deadline s v : same_on settings s (upd (set_requestDateCounter v) s).
Proof. by destruct s as [[] ? ?]. Qed.

Lemma settings_frame_clock s d : same_on settings s (tick d s).
Proof. done. Qed.

Lemma throttle_keeps_settings (env : Env) (s : State) :
  settings (self (state_of (throttle env s))) = settings (self s).
Proof.
  apply (throttle_respects (same_on settings) any_event);
    first [ exact _ | apply settings_frame_count | apply settings_frame_deadline
          | apply settings_frame_clock | done ].
Qed.

Lemma stat_request_settings (o o' : MetricGrabber) metricName inst i :
  settings o' = settings o ->
  stat_request o' metricName inst i = stat_request o metricName inst i.
Proof. destruct o, o'. unfold settings. simpl. intros [=]. by subst. Qed.

Lemma cloudwatch_settings (o o' : MetricGrabber) :
  settings o' = settings o -> cloudwatch o' = cloudwatch o.
Proof. destruct o, o'. unfold settings. simpl. by intros [=]. Qed.

(** A run of [printMetrics] on an [instanceId] that is not [None]: after
    the rate limit, one request for the statistics of [i], then the rows of
    the answer sorted by timestamp. *)
Lemma printMetrics_run (env : Env) (inst : list string) (i : Metric) (s : State) :
  let r := printMetrics env (Some inst) i s in
  let s1 := state_of (throttle env s) in
  let req := stat_request (self s) (name i) inst i in
  match outcome_of (throttle env s), cloudwatch (self s) with
  | Ok _, Some cw =>
      let reply := get_metric_statistics cw req in
      match response reply with
      | Success values =>
          let rows := for_each (sorted Timestamp values)
                        (print_datapoint (self s1) inst (name i) i)
                        (tick (Z.of_N (elapsed reply)) s1) in
          events_of r
          = (events_of (throttle env s) ++ EvGetMetricStatistics req :: events_of rows)%list
          ∧ outcome_of r = outcome_of rows
      | Failure e =>
          events_of r = (events_of (throttle env s) ++ [EvGetMetricStatistics req])%list
          ∧ outcome_of r = Raise e
      end
  | Ok _, None => events_of r = events_of (throttle env s)
                  ∧ outcome_of r = Raise AttributeError
  | Raise e, _ => events_of r = events_of (throttle env s) ∧ outcome_of r = Raise e
  | OutOfFuel, _ => events_of r = events_of (throttle env s) ∧ outcome_of r = OutOfFuel
  end.
Proof.
  intros r s1 req. subst r. unfold printMetrics.
  rewrite bind_events, bind_outcome. fold s1.
  pose proof (throttle_keeps_settings env s) as Hset. fold s1 in Hset.
  destruct (outcome_of (throttle env s)) as [[] | e |];
    [| by rewrite app_nil_r | by rewrite app_nil_r].
  rewrite metric_name_partition.
  rewrite <- (cloudwatch_settings _ _ Hset).
  subst req. rewrite <- (stat_request_settings _ _ (name i) inst i Hset).
  generalize (events_of (throttle env s)). intros t0. clearbody s1.
  destruct (cloudwatch (self s1)) as [cw |] eqn:Hcw.
  - unfold connection, call, mbind, M_bind, bind, read_self, emit, advance. simpl.
    rewrite Hcw. simpl.
    destruct (response (get_metric_statistics cw _)) as [values | e]; simpl.
    + unfold tick.
      by destruct (for_each _ _ _) as [[? ?] ?].
    + done.
  - unfold connection, call, mbind, M_bind, bind, read_self, emit, advance. simpl.
    rewrite Hcw. simpl. by rewrite app_nil_r.
Qed.

(** C8. Whatever the order in which the service returns the data points,
    the rows [printMetrics] prints carry timestamps in ascending order; and
    when it returns, the rows are those of all the data points returned. *)
Theorem rows_ascending (env : Env) (inst : option (list string)) (i : Metric)
    (s : State) :
  let r := printMetrics env inst i s in
  Sorted Z.le (row_timestamps (events_of r))
  ∧ ∀ l, inst = Some l -> outcome_of r = Ok tt ->
      ∃ cw values,
        cloudwatch (self s) = Some cw
        ∧ response (get_metric_statistics cw (stat_request (self s) (name i) l i))
          = Success values
        ∧ row_timestamps (events_of r) ≡ₚ map Timestamp values.
Proof.
  destruct inst as [l |]; simpl; [| split; [constructor | done]].
  pose proof (printMetrics_run env l i s) as Hrun. simpl in Hrun.
  destruct (sleeps_only _ (throttle_only_sleeps env s)) as (Hrows & _).
  destruct (outcome_of (throttle env s)) as [[] | e |].
  - destruct (cloudwatch (self s)) as [cw |].
    + destruct (response (get_metric_statistics cw _)) as [values | e] eqn:Hresp.
      * destruct Hrun as [-> ->].
        rewrite row_timestamps_app, Hrows. simpl.
        match goal with
        | |- context [for_each ?vs ?body ?st] =>
            destruct (for_each_rows (self (state_of (throttle env s))) l (name i) i
                        (sorted Timestamp values) st) as [[k Hk] Hall]
        end.
        split.
        -- rewrite Hk. apply Sorted_take, sorted_ascending.
        -- intros l' [= <-] Hok. exists cw, values. split_and!; [done.. |].
           rewrite (Hall Hok). by rewrite sorted_perm.
      * destruct Hrun as [-> ->]. rewrite row_timestamps_app, Hrows. simpl.
        split; [constructor | done].
    + destruct Hrun as [-> ->]. rewrite Hrows. split; [constructor | done].
  - destruct Hrun as [-> ->]. rewrite Hrows. split; [constructor | done].
  - destruct Hrun as [-> ->]. rewrite Hrows. split; [constructor | done].
Qed.

Lemma rows_ascending_witness :
  let env := example_env [] in
  let s := example_ready [] in
  let r := printMetrics env (Some ["i-123"]) cpu_i123 s in
  row_timestamps (events_of r)
  = [example_midnight; example_midnight + 60 * usec_per_sec;
     example_midnight + 120 * usec_per_sec]
  ∧ ∃ cw values,
      cloudwatch (self s) = Some cw
      ∧ response (get_metric_statistics cw
                    (stat_request (self s) (name cpu_i123) ["i-123"] cpu_i123))
        = Success values
      ∧ row_timestamps (events_of r) ≡ₚ map Timestamp values.
Proof.
  intros env s r. split; [by vm_compute |].
  destruct (rows_ascending env (Some ["i-123"]) cpu_i123 s) as [_ H].
  apply (H ["i-123"]); [reflexivity | by vm_compute].
Defined.

(** ** The filter of the descriptors (lines 145 to 157) *)

Lemma resolve_instanceId_selected (o : MetricGrabber) (i : Metric) (inst : list string) :
  dimension_selected o i inst
  ↔ resolve_instanceId o i = Some inst ∧ list_truthy (Some inst) = true.
Proof.
  unfold dimension_selected, resolve_instanceId, dimension_value. split.
  - intros [(k & Hk & Hne & Hd & Hi) | (Hk & Hd & ->)].
    + rewrite Hk, Hd. destruct k; [done |]. destruct inst; [done |]. done.
    + rewrite Hk, Hd. simpl. rewrite lookup_empty. simpl.
      by rewrite map_size_empty.
  - intros [Hr Ht]. destruct (attribute o) as [k |] eqn:Hk; simpl in Hr.
    + destruct k as [| c k]; simpl in Hr.
      * done.
      * destruct (dimensions i !! String c k) as [[| x l] |] eqn:Hd; simpl in Hr.
        -- destruct (bool_decide _ && _) eqn:Hb; [| done].
           apply andb_true_iff in Hb as [Hm%bool_decide_eq_true Hs%Nat.eqb_eq].
           apply map_size_empty_iff in Hs. rewrite Hs, lookup_empty in Hd. done.
        -- left. exists (String c k). by simplify_eq.
        -- destruct (bool_decide _ && _) eqn:Hb; [| done].
           apply andb_true_iff in Hb as [Hm%bool_decide_eq_true Hs%Nat.eqb_eq].
           apply map_size_empty_iff in Hs. right. by simplify_eq.
    + done.
Qed.

Lemma prefix_metric (p n : string) :
  startswith ("Metric:" +:+ n) ("Metric:" +:+ p) = String.prefix p n.
Proof. reflexivity. Qed.

Lemma name_selected_test (o : MetricGrabber) (i : Metric) :
  name_selected o i
  ↔ (if truthy (queryType o)
     then startswith (str_metric i) ("Metric:" +:+ str_opt (queryType o))
     else true) = true.
Proof.
  unfold name_selected, str_metric. destruct (queryType o) as [[| c p] |]; simpl.
  - by destruct (name i).
  - done.
  - done.
Qed.

Lemma process_item_run (env : Env) (i : Metric) (s : State) :
  process_item env i s
  = (let instanceId := resolve_instanceId (self s) i in
     if list_truthy instanceId then
       if (if truthy (queryType (self s))
           then startswith (str_metric i) ("Metric:" +:+ str_opt (queryType (self s)))
           else true)
       then printMetrics env instanceId i s
       else (Ok tt, s, [])
     else (Ok tt, s, [])).
Proof.
  unfold process_item. rewrite run_bind. unfold read_self. simpl.
  destruct (list_truthy _); [| done].
  destruct (truthy _).
  - destruct (startswith _ _); [| done].
    by destruct (printMetrics _ _ _ _) as [[? ?] ?].
  - by destruct (printMetrics _ _ _ _) as [[? ?] ?].
Qed.

Lemma throttle_returns (env : Env) (s : State) :
  0 <= secondsToSleep (self s) -> outcome_of (throttle env s) = Ok tt.
Proof.
  intros H. rewrite throttle_meets_contract by done.
  unfold throttle_contract. by case_decide.
Qed.

Lemma for_each_datapoints_only_print o inst metricName i l s :
  Forall is_print (events_of (for_each l (print_datapoint o inst metricName i) s)).
Proof.
  apply (respects_for_each trivial_frame is_print). intros v.
  apply print_datapoint_respects; [exact _ |]. intros ln. by exists ln.
Qed.

(** The requests of a run of [printMetrics]: one for the statistics of [i]
    when the rate limit returns and there is a connection, none for a page
    of descriptors. *)
Lemma printMetrics_requests (env : Env) (inst : list string) (i : Metric) (s : State) :
  let evs := events_of (printMetrics env (Some inst) i s) in
  stat_requests evs
  = match outcome_of (throttle env s), cloudwatch (self s) with
    | Ok _, Some _ => [stat_request (self s) (name i) inst i]
    | _, _ => []
    end
  ∧ list_metrics_calls evs = [].
Proof.
  pose proof (printMetrics_run env inst i s) as Hrun. simpl in *.
  destruct (sleeps_only _ (throttle_only_sleeps env s)) as (_ & Hst & Hls).
  destruct (outcome_of (throttle env s)) as [[] | e |].
  - destruct (cloudwatch (self s)) as [cw |].
    + destruct (response (get_metric_statistics cw _)) as [values | e].
      * destruct Hrun as [-> _].
        rewrite stat_requests_app, list_metrics_calls_app, Hst, Hls. simpl.
        match goal with
        | |- context [for_each ?vs ?body ?st] =>
            destruct (prints_only _
              (for_each_datapoints_only_print
                 (self (state_of (throttle env s))) inst (name i) i vs st))
              as [-> ->]
        end.
        done.
      * destruct Hrun as [-> _].
        by rewrite stat_requests_app, list_metrics_calls_app, Hst, Hls.
    + by destruct Hrun as [-> _].
  - by destruct Hrun as [-> _].
  - by destruct Hrun as [-> _].
Qed.

(** C6. A descriptor is passed on to the fetch of its statistics exactly
    when the filter selects it: it has a non-empty value for the configured
    dimension key, or the key is ["MetricName"] and it has no dimension at
    all (then it stands for the ["Total"] series); and its name starts with
    the configured pattern, if there is one. A selected descriptor is handed
    to [printMetrics] with that value, which requests its statistics once;
    for any other descriptor nothing happens. *)
Theorem descriptor_filter (env : Env) (i : Metric) (s : State) :
  let o := self s in
  (∀ inst, should_emit o i inst ->
     process_item env i s = printMetrics env (Some inst) i s
     ∧ (0 <= secondsToSleep o -> is_Some (cloudwatch o) ->
        stat_requests (events_of (process_item env i s))
        = [stat_request o (name i) inst i]))
  ∧ ((∀ inst, ¬ should_emit o i inst) -> process_item env i s = (Ok tt, s, []))
  ∧ ((∃ inst, should_emit o i inst) ∨ (∀ inst, ¬ should_emit o i inst)).
Proof.
  simpl. split_and!.
  - intros inst [Hd Hn].
    apply resolve_instanceId_selected in Hd as [Hr Ht].
    apply name_selected_test in Hn.
    assert (process_item env i s = printMetrics env (Some inst) i s) as E.
    { rewrite process_item_run. cbv zeta. by rewrite Hr, Ht, Hn. }
    split; [done |]. intros Hs [cw Hcw]. rewrite E.
    destruct (printMetrics_requests env inst i s) as [-> _].
    by rewrite throttle_returns, Hcw.
  - intros Hno. rewrite process_item_run. cbv zeta.
    destruct (list_truthy (resolve_instanceId (self s) i)) eqn:Ht; [| done].
    destruct (if truthy _ then _ else _) eqn:Hn; [| done].
    destruct (resolve_instanceId (self s) i) as [inst |] eqn:Hr; [| done].
    destruct (Hno inst). split.
    + by apply resolve_instanceId_selected.
    + by apply name_selected_test.
  - destruct (resolve_instanceId (self s) i) as [inst |] eqn:Hr.
    + destruct (list_truthy (Some inst)) eqn:Ht.
      * destruct (if truthy (queryType (self s))
                  then startswith (str_metric i)
                         ("Metric:" +:+ str_opt (queryType (self s)))
                  else true) eqn:Hn.
        -- left. exists inst. split.
           ++ by apply resolve_instanceId_selected.
           ++ by apply name_selected_test.
        -- right. intros inst' [_ Hn']. apply name_selected_test in Hn'. congruence.
      * right. intros inst' [Hd _].
        apply resolve_instanceId_selected in Hd as [Hr' Ht']. congruence.
    + right. intros inst' [Hd _].
      apply resolve_instanceId_selected in Hd as [Hr' _]. congruence.
Qed.

Lemma descriptor_filter_witness :
  let env := example_env [] in
  let s := upd (set_attribute (Some "InstanceId")) (example_ready []) in
  process_item env cpu_i123 s = printMetrics env (Some ["i-123"]) cpu_i123 s
  ∧ stat_requests (events_of (process_item env cpu_i123 s))
    = [stat_request (self s) "CPUUtilization" ["i-123"] cpu_i123]
  ∧ process_item env network_in_total s = (Ok tt, s, []).
Proof.
  intros env s.
  assert (should_emit (self s) cpu_i123 ["i-123"]) as Hsel.
  { split; [| done]. left. exists "InstanceId". by split_and!. }
  destruct (descriptor_filter env cpu_i123 s) as (Hyes & _ & _).
  destruct (Hyes _ Hsel) as [Hrun Hreq].
  destruct (descriptor_filter env network_in_total s) as (_ & Hno & _).
  split_and!.
  - exact Hrun.
  - apply Hreq; [by vm_compute | by eexists].
  - apply Hno. intros inst [[(k & Hk & _ & Hd & _) | (Hk & _)] _].
    + simpl in Hd. by rewrite lookup_empty in Hd.
    + discriminate Hk.
Defined.

Example filter_by_dimension_key :
  let o := set_attribute (Some "InstanceId") new_object in
  should_emit o cpu_i123 ["i-123"] ∧ ∀ inst, ¬ should_emit o network_in_total inst.
Proof.
  split.
  - split; [| done]. left. exists "InstanceId". by split_and!.
  - intros inst [[(k & Hk & _ & Hd & _) | (Hk & _)] _].
    + simpl in Hd. by rewrite lookup_empty in Hd.
    + discriminate Hk.
Qed.

Example filter_aggregate_key :
  let o := set_attribute (Some "MetricName") new_object in
  should_emit o network_in_total ["Total"] ∧ ∀ inst, ¬ should_emit o cpu_i123 inst.
Proof.
  split.
  - split; [| done]. by right.
  - intros inst [[(k & [= <-] & _ & Hd & _) | (_ & Hd & _)] _].
    + by vm_compute in Hd.
    + exact (map_non_empty_singleton _ _ Hd).
Qed.

Example filter_by_name_pattern :
  let o pattern := set_queryType (Some pattern) (set_attribute (Some "MetricName") new_object) in
  should_emit (o "Network") network_in_total ["Total"]
  ∧ ∀ inst, ¬ should_emit (o "Disk") network_in_total inst.
Proof.
  split.
  - split; [by right | done].
  - by intros inst [_ Hn].
Qed.

(** ** The pagination loop of [grabMetrics] (lines 141 to 162) *)

Lemma connection_run (s : State) :
  connection s
  = (match cloudwatch (self s) with
     | Some cw => Ok cw
     | None => Raise AttributeError
     end, s, []).
Proof.
  unfold connection. rewrite run_bind. unfold read_self. simpl.
  by destruct (cloudwatch (self s)).
Qed.

Lemma call_run {A : Type} (ev : Event) (r : Reply A) (s : State) :
  call ev r s
  = (match response r with
     | Success a => Ok a
     | Failure e => Raise e
     end, tick (Z.of_N (elapsed r)) s, [ev]).
Proof.
  unfold call, mbind, M_bind, bind, emit, advance. simpl.
  by destruct (response r).
Qed.

Lemma process_item_events (env : Env) (i : Metric) (s : State) :
  list_metrics_calls (events_of (process_item env i s)) = [].
Proof.
  rewrite process_item_run. cbv zeta.
  destruct (list_truthy _) eqn:Ht; [| done].
  destruct (if truthy _ then _ else _); [| done].
  destruct (resolve_instanceId (self s) i) as [inst |]; [| done].
  apply printMetrics_requests.
Qed.

Lemma for_each_items_events (env : Env) (l : list Metric) (s : State) :
  list_metrics_calls (events_of (for_each l (process_item env) s)) = [].
Proof.
  revert s. induction l as [| i l IH]; intros s; simpl; [done |].
  rewrite bind_events, list_metrics_calls_app, process_item_events. simpl.
  by destruct (outcome_of _).
Qed.

Lemma grabMetrics_loop_calls (env : Env) (fuel : nat) (p : MetricPage) (s : State) :
  Forall later_call
    (list_metrics_calls (events_of (grabMetrics_loop env fuel p s))).
Proof.
  revert p s. induction fuel as [| fuel IH]; intros p s; [constructor |].
  cbn [grabMetrics_loop].
  rewrite bind_events, list_metrics_calls_app, for_each_items_events.
  cbn [app].
  destruct (outcome_of (for_each _ _ s)) as [[] | e |]; [| constructor..].
  set (s1 := state_of _). clearbody s1.
  destruct (truthy (metrics_next_token p)) eqn:Htok; [| constructor].
  rewrite bind_events, connection_run.
  cbn [outcome_of state_of events_of fst snd app].
  destruct (cloudwatch (self s1)) as [cw |]; [| constructor].
  rewrite bind_events, call_run.
  cbn [outcome_of state_of events_of fst snd app list_metrics_calls omap].
  constructor; [by split_and! |].
  destruct (response _) as [q | e]; [apply IH | constructor].
Qed.

(** C9. Of the requests [grabMetrics] makes for pages of descriptors, the
    first carries the namespace (as fourth argument, after three [None]);
    every later one is made with the cursor of the page before as its only
    argument, so that it carries no namespace. *)
Theorem later_pages_without_namespace (env : Env) (fuel : nat) (s : State) :
  let calls := list_metrics_calls (events_of (grabMetrics env fuel s)) in
  (∀ first, head calls = Some first ->
     first = [None; None; None; namespace (self s)]
     ∧ arg_namespace first = namespace (self s))
  ∧ Forall later_call (tail calls).
Proof.
  unfold grabMetrics. rewrite bind_events. unfold read_self.
  cbn [outcome_of state_of events_of fst snd app].
  rewrite bind_events, connection_run.
  cbn [outcome_of state_of events_of fst snd app].
  destruct (cloudwatch (self s)) as [cw |]; [| by split].
  rewrite bind_events, call_run.
  cbn [outcome_of state_of events_of fst snd app].
  change (list_metrics_calls (EvListMetrics ?a :: ?l))
    with (a :: list_metrics_calls l).
  cbn [head tail]. split.
  - intros first [= <-]. by split.
  - destruct (response _) as [p | e]; [apply grabMetrics_loop_calls | constructor].
Qed.

Lemma later_pages_without_namespace_witness :
  let env := example_env [] in
  let s := upd (set_namespace (Some "AWS/EC2"))
             (upd (set_attribute (Some "InstanceId")) (example_ready [])) in
  let calls := list_metrics_calls (events_of (grabMetrics env 5 s)) in
  calls = [[None; None; None; Some "AWS/EC2"]; [Some "page-2"]]
  ∧ (∀ first, head calls = Some first -> arg_namespace first = Some "AWS/EC2")
  ∧ Forall later_call (tail calls).
Proof.
  intros env s calls.
  destruct (later_pages_without_namespace env 5 s) as [Hfirst Hlater].
  split_and!.
  - by vm_compute.
  - intros first Hhd. by destruct (Hfirst first Hhd) as [_ ->].
  - exact Hlater.
Defined.

(** *** Termination and completeness *)

Lemma halts_bind {A B : Type} (m : M A) (f : A -> M B) :
  halts m -> (∀ a, halts (f a)) -> halts (m ≫= f).
Proof.
  intros Hm Hf s. rewrite bind_outcome. specialize (Hm s).
  destruct (outcome_of (m s)); [apply Hf | done | done].
Qed.

Lemma halts_for_each {A : Type} (l : list A) (body : A -> M unit) :
  (∀ x, halts (body x)) -> halts (for_each l body).
Proof.
  intros Hb. induction l as [| x l IH]; [done |].
  apply halts_bind; [apply Hb | intros _; apply IH].
Qed.

Lemma throttle_halts (env : Env) : halts (throttle env).
Proof.
  unfold throttle, sleep.
  repeat first [ apply halts_bind; [| intros ?] | done
               | match goal with
                 | |- halts (if ?b then _ else _) => destruct b
                 end ].
Qed.

Lemma row_cells_halts v stats tmp : halts (row_cells v stats tmp).
Proof.
  revert tmp. induction stats as [| stat rest IH]; intros tmp; simpl; [done |].
  destruct (fields v !! stat); [apply IH | done].
Qed.

Lemma print_datapoint_halts o inst metricName i v :
  halts (print_datapoint o inst metricName i v).
Proof.
  unfold print_datapoint, datapoint_truthy, first_of, print.
  repeat first [ apply row_cells_halts | apply halts_bind; [| intros ?] | done
               | match goal with
                 | |- halts (match ?x with _ => _ end) => destruct x
                 end ].
Qed.

Lemma connection_halts : halts connection.
Proof. intros s. rewrite connection_run. by destruct (cloudwatch (self s)). Qed.

Lemma call_halts {A : Type} (ev : Event) (r : Reply A) : halts (call ev r).
Proof. intros s. rewrite call_run. by destruct (response r). Qed.

Lemma printMetrics_halts (env : Env) inst i : halts (printMetrics env inst i).
Proof.
  unfold printMetrics. destruct inst; [| done]. cbv zeta.
  repeat first [ apply throttle_halts | apply connection_halts | apply call_halts
               | apply halts_for_each; intros ?; apply print_datapoint_halts
               | apply halts_bind; [| intros ?]
               | done ].
Qed.

Lemma process_item_halts (env : Env) i : halts (process_item env i).
Proof.
  intros s. rewrite process_item_run. cbv zeta.
  repeat (match goal with
          | |- context [if ?b then _ else _] => destruct b
          end); first [apply printMetrics_halts | done].
Qed.

Lemma visit_pages_halts (env : Env) (p : MetricPage) (rest : list MetricPage) :
  halts (visit_pages env p rest).
Proof.
  revert p. induction rest as [| q rest IH]; intros p; simpl.
  - apply halts_bind; [apply halts_for_each, process_item_halts | done].
  - apply halts_bind; [apply halts_for_each, process_item_halts | intros _].
    apply halts_bind; [apply connection_halts | intros cw].
    apply halts_bind; [apply call_halts | intros _]. apply IH.
Qed.

Lemma process_item_keeps_settings (env : Env) (i : Metric) (s : State) :
  settings (self (state_of (process_item env i s))) = settings (self s).
Proof.
  apply (process_item_respects (same_on settings) any_event);
    first [ exact _ | apply settings_frame_count | apply settings_frame_deadline
          | apply settings_frame_clock | done ].
Qed.

Lemma for_each_items_keep_settings (env : Env) (l : list Metric) (s : State) :
  settings (self (state_of (for_each l (process_item env) s))) = settings (self s).
Proof.
  apply (respects_for_each (same_on settings) any_event).
  intros i s'. split; [apply process_item_keeps_settings |].
  apply Forall_forall. by intros.
Qed.

(** With the pages of a chain and fuel for each of them, the loop is the
    visit of the pages in order. *)
Lemma grabMetrics_loop_visits (env : Env) (cw : Cloudwatch) (p : MetricPage)
    (rest : list MetricPage) :
  page_chain cw p rest ->
  ∀ fuel s, (length rest < fuel)%nat -> cloudwatch (self s) = Some cw ->
            grabMetrics_loop env fuel p s = visit_pages env p rest s.
Proof.
  induction 1 as [p Htok | p q rest Htok Hnext Hchain IH]; intros fuel s Hfuel Hcw;
    (destruct fuel as [| fuel]; [simpl in Hfuel; lia |]); cbn [grabMetrics_loop visit_pages].
  - by rewrite Htok.
  - rewrite Htok. rewrite !(run_bind (for_each _ _)).
    pose proof (for_each_items_keep_settings env (metrics_items p) s) as Hset.
    destruct (for_each (metrics_items p) (process_item env) s) as [[[[] | e |] s1] t1];
      [| done..].
    unfold state_of in Hset. simpl in Hset.
    apply cloudwatch_settings in Hset. rewrite Hcw in Hset.
    rewrite !(run_bind connection), connection_run, Hset.
    rewrite !(run_bind (call _ _)), call_run, Hnext.
    rewrite IH; [done | simpl in Hfuel; lia | done].
Qed.

Lemma selected_should_emit (o : MetricGrabber) (i : Metric) (inst : list string) :
  selected o i = Some inst ↔ should_emit o i inst.
Proof.
  unfold selected, should_emit. cbv zeta.
  rewrite resolve_instanceId_selected, name_selected_test.
  destruct (resolve_instanceId o i) as [l |] eqn:Hr.
  - destruct (list_truthy (Some l)) eqn:Ht; simpl.
    + destruct (if truthy (queryType o) then _ else _).
      * split; [by intros [= ->] | by intros [[[= ->] _] _]].
      * split; [done | by intros [_ ?]].
    + split; [done |]. intros [[[= ->] Ht'] _]. simpl in Ht. congruence.
  - simpl. split; [done | by intros [[? _] _]].
Qed.

Lemma requests_of_settings (o o' : MetricGrabber) (i : Metric) :
  settings o' = settings o -> requests_of o' i = requests_of o i.
Proof. destruct o, o'. unfold settings. simpl. intros [=]. by subst. Qed.

Lemma process_item_requests (env : Env) (i : Metric) (s : State) :
  outcome_of (process_item env i s) = Ok tt ->
  stat_requests (events_of (process_item env i s)) = requests_of (self s) i.
Proof.
  unfold requests_of, selected. rewrite process_item_run. cbv zeta.
  destruct (list_truthy _) eqn:Ht; [| done].
  destruct (if truthy _ then _ else _); [| done]. simpl.
  destruct (resolve_instanceId (self s) i) as [inst |]; [| done].
  intros Hok. destruct (printMetrics_requests env inst i s) as [-> _].
  pose proof (printMetrics_run env inst i s) as Hrun. cbv zeta in Hrun.
  destruct (outcome_of (throttle env s)) as [[] | e |].
  - destruct (cloudwatch (self s)); [done |].
    destruct Hrun as [_ Hrun]. congruence.
  - destruct Hrun as [_ Hrun]. congruence.
  - destruct Hrun as [_ Hrun]. congruence.
Qed.

Lemma for_each_items_requests (env : Env) (l : list Metric) (s : State) :
  outcome_of (for_each l (process_item env) s) = Ok tt ->
  stat_requests (events_of (for_each l (process_item env) s))
  = flat_map (requests_of (self s)) l.
Proof.
  revert s. induction l as [| i l IH]; intros s; [done |].
  cbn [for_each flat_map]. intros Hok.
  apply bind_ok_inv in Hok as ([] & Hi & Hl & _ & ->).
  rewrite stat_requests_app, (process_item_requests env i s Hi), (IH _ Hl).
  f_equal. apply flat_map_ext. intros j.
  apply requests_of_settings, process_item_keeps_settings.
Qed.

Lemma flat_map_concat_cons {A B : Type} (f : A -> list B) (l : list A) (ls : list (list A)) :
  flat_map f (concat (l :: ls)) = (flat_map f l ++ flat_map f (concat ls))%list.
Proof. simpl. apply flat_map_app. Qed.

(** What the visit of the pages requests when it returns: the statistics of
    the selected descriptors of all pages, page after page and in the order
    of each page, and the pages after the first one by one. *)
Lemma visit_pages_requests (env : Env) (rest : list MetricPage) :
  ∀ (p : MetricPage) (s : State),
    outcome_of (visit_pages env p rest s) = Ok tt ->
    stat_requests (events_of (visit_pages env p rest s))
    = flat_map (requests_of (self s)) (concat (map metrics_items (p :: rest)))
    ∧ list_metrics_calls (events_of (visit_pages env p rest s)) = cursors p rest.
Proof.
  induction rest as [| q rest IH]; intros p s Hok; cbn [visit_pages] in *.
  - apply bind_ok_inv in Hok as ([] & Hitems & _ & _ & ->).
    rewrite stat_requests_app, list_metrics_calls_app.
    rewrite (for_each_items_requests env _ s Hitems), for_each_items_events.
    simpl. by rewrite !app_nil_r.
  - apply bind_ok_inv in Hok as ([] & Hitems & Hok & _ & ->).
    pose proof (for_each_items_keep_settings env (metrics_items p) s) as Hset.
    set (s1 := state_of (for_each (metrics_items p) (process_item env) s)) in *.
    apply bind_ok_inv in Hok as (cw & _ & Hok & _ & ->).
    rewrite connection_run in *.
    cbn [outcome_of state_of events_of fst snd app] in *.
    apply bind_ok_inv in Hok as (q' & _ & Hok & _ & ->).
    rewrite call_run in *.
    cbn [outcome_of state_of events_of fst snd app] in *.
    destruct (IH q _ Hok) as [Hst Hls].
    rewrite stat_requests_app, list_metrics_calls_app.
    rewrite (for_each_items_requests env _ s Hitems), for_each_items_events.
    change (stat_requests (EvListMetrics ?a :: ?l)) with (stat_requests l).
    change (list_metrics_calls (EvListMetrics ?a :: ?l))
      with (a :: list_metrics_calls l).
    rewrite Hst, Hls. split; [| done].
    change (map metrics_items (p :: q :: rest))
      with (metrics_items p :: map metrics_items (q :: rest)).
    rewrite flat_map_concat_cons. f_equal.
    apply flat_map_ext. intros j. by apply requests_of_settings.
Qed.

Lemma grabMetrics_run (env : Env) (cw : Cloudwatch) (p : MetricPage) (fuel : nat)
    (s : State) :
  let first := [None; None; None; namespace (self s)] in
  let s0 := tick (Z.of_N (elapsed (list_metrics cw first))) s in
  cloudwatch (self s) = Some cw ->
  response (list_metrics cw first) = Success p ->
  grabMetrics env fuel s
  = (outcome_of (grabMetrics_loop env fuel p s0),
     state_of (grabMetrics_loop env fuel p s0),
     EvListMetrics first :: events_of (grabMetrics_loop env fuel p s0)).
Proof.
  intros first s0 Hcw Hp. unfold grabMetrics.
  rewrite run_bind. unfold read_self. cbv beta iota.
  rewrite run_bind, connection_run, Hcw.
  rewrite run_bind, call_run. fold first. rewrite Hp. fold s0.
  by destruct (grabMetrics_loop env fuel p s0) as [[? ?] ?].
Qed.

(** C2. When the listing answers with a finite chain of pages, each but the
    last carrying a cursor, [grabMetrics] with fuel for every page returns
    from its loop (it does not run out of fuel) after the page without
    cursor: it is the visit of the pages in order, every item of a page
    being processed in the order of the page before the next page is
    fetched. When it returns, the statistics requested are those of the
    selected descriptors of the concatenation of the pages, once each and in
    that order, and one page is requested per cursor. *)
Theorem pagination_complete (env : Env) (cw : Cloudwatch) (p : MetricPage)
    (rest : list MetricPage) (fuel : nat) (s : State) :
  let first := [None; None; None; namespace (self s)] in
  let s0 := tick (Z.of_N (elapsed (list_metrics cw first))) s in
  let r := grabMetrics env fuel s in
  cloudwatch (self s) = Some cw ->
  response (list_metrics cw first) = Success p ->
  page_chain cw p rest ->
  (length rest < fuel)%nat ->
  events_of r = EvListMetrics first :: events_of (visit_pages env p rest s0)
  ∧ state_of r = state_of (visit_pages env p rest s0)
  ∧ outcome_of r = outcome_of (visit_pages env p rest s0)
  ∧ outcome_of r ≠ OutOfFuel
  ∧ (outcome_of r = Ok tt ->
     stat_requests (events_of r)
     = flat_map (requests_of (self s)) (concat (map metrics_items (p :: rest)))
     ∧ list_metrics_calls (events_of r) = first :: cursors p rest).
Proof.
  intros first s0 r Hcw Hp Hchain Hfuel. subst r.
  rewrite (grabMetrics_run env cw p fuel s Hcw Hp). fold first s0.
  rewrite (grabMetrics_loop_visits env cw p rest Hchain fuel s0 Hfuel Hcw).
  cbn [outcome_of state_of events_of fst snd].
  split_and!; try done.
  - apply visit_pages_halts.
  - intros Hok. destruct (visit_pages_requests env rest p s0 Hok) as [Hst Hls].
    change (stat_requests (EvListMetrics ?a :: ?l)) with (stat_requests l).
    change (list_metrics_calls (EvListMetrics ?a :: ?l))
      with (a :: list_metrics_calls l).
    by rewrite Hst, Hls.
Qed.

Lemma example_listing_chain :
  page_chain example_cloudwatch example_page1 [example_page2].
Proof. apply chain_next; [reflexivity | reflexivity |]. by apply chain_last. Qed.

Lemma example_listing_returns :
  outcome_of (grabMetrics (example_env []) 2 example_listing) = Ok tt.
Proof. by vm_compute. Qed.

Lemma example_listing_requests :
  flat_map (requests_of (self example_listing))
    (concat (map metrics_items [example_page1; example_page2]))
  = [stat_request (self example_listing) "CPUUtilization" ["i-123"] cpu_i123;
     stat_request (self example_listing) "NetworkIn" ["i-456"] network_in_i456].
Proof. by vm_compute. Qed.

Lemma pagination_complete_witness :
  outcome_of (grabMetrics (example_env []) 2 example_listing) = Ok tt
  ∧ stat_requests (events_of (grabMetrics (example_env []) 2 example_listing))
    = [stat_request (self example_listing) "CPUUtilization" ["i-123"] cpu_i123;
       stat_request (self example_listing) "NetworkIn" ["i-456"] network_in_i456]
  ∧ list_metrics_calls (events_of (grabMetrics (example_env []) 2 example_listing))
    = [[None; None; None; Some "AWS/EC2"]; [Some "page-2"]].
Proof.
  destruct (pagination_complete (example_env []) example_cloudwatch example_page1
              [example_page2] 2 example_listing eq_refl eq_refl
              example_listing_chain (Nat.lt_succ_diag_r 1))
    as (_ & _ & _ & _ & Hreq).
  destruct (Hreq example_listing_returns) as [Hst Hls].
  split_and!.
  - exact example_listing_returns.
  - exact (eq_trans Hst example_listing_requests).
  - exact Hls.
Defined.

(** [__init__] leaves the rate limit with a fresh window: no request
    counted, an allowance of 2, and the deadline one second ahead. *)
Lemma init_sets_limiter (env : Env) (s : State) :
  outcome_of (__init__ env s) = Ok tt ->
  let s' := state_of (__init__ env s) in
  totalRequests (self s') = 0
  ∧ maxRequestsPerTimePeriod (self s') = 2
  ∧ secondsToSleep (self s') = 1
  ∧ requestDateCounter (self s') = local_now env s' + 1 * usec_per_sec.
Proof.
  intros Hok. unfold __init__ in *.
  apply bind_ok_inv in Hok as ([] & _ & Hok & -> & _).
  apply bind_ok_inv in Hok as ([] & _ & _ & -> & _).
  by split_and!.
Qed.

(** ** The credentials ([grabKeys], [getCredentials]) *)

Lemma getCredentials_run (env : Env) (k : string) (s : State) :
  getCredentials env k s
  = (match getEntities env k with
     | Failure (SystemExit c) => Raise (SystemExit c)
     | Failure e => Raise (Exception (credentials_unavailable +:+ str_exn e))
     | Success [] => Raise (Exception "No credentials have been found")
     | Success ((_, c) :: _) => Ok (username c, clear_password c)
     end, s, [EvGetEntities k]).
Proof.
  unfold getCredentials. rewrite run_bind. unfold emit. cbv beta iota.
  destruct (getEntities env k) as [[| [n c] l] | e]; try done.
  by destruct e.
Qed.

(** X3. [getCredentials] asks the credential store once and leaves the
    object alone. It returns the first credential whatever follows it; an
    empty store and a failing store both end in an [Exception], the latter
    with the text of the failure appended to a fixed message. *)
Theorem getCredentials_first_or_exception (env : Env) (k : string) (s : State) :
  let r := getCredentials env k s in
  state_of r = s
  ∧ events_of r = [EvGetEntities k]
  ∧ (∀ n c rest, getEntities env k = Success ((n, c) :: rest) ->
       outcome_of r = Ok (username c, clear_password c))
  ∧ (getEntities env k = Success [] ->
       outcome_of r = Raise (Exception "No credentials have been found"))
  ∧ (∀ e, getEntities env k = Failure e -> (∀ c, e ≠ SystemExit c) ->
       outcome_of r = Raise (Exception (credentials_unavailable +:+ str_exn e))).
Proof.
  simpl. rewrite getCredentials_run. split_and!; try done.
  - by intros n c rest ->.
  - by intros ->.
  - intros e -> Hne. destruct e; try done. by destruct (Hne code).
Qed.

Lemma getCredentials_first_or_exception_witness :
  outcome_of (getCredentials (example_env []) "session-key" example_start)
  = Ok ("AKIAEXAMPLE", "secret").
Proof.
  destruct (getCredentials_first_or_exception (example_env []) "session-key"
              example_start) as (_ & _ & H & _).
  exact (H "aws" {| username := "AKIAEXAMPLE"; clear_password := "secret" |} []
           eq_refl).
Defined.

Lemma grabKeys_run (env : Env) (s : State) :
  accesskey (self s) = None ->
  grabKeys env s
  = (let line := hd "" (stdin s) in
     let s1 := {| self := self s; clock := clock s; stdin := tail (stdin s) |} in
     if (String.length (strip line) =? 0)%nat then
       (Raise (SystemExit 2), s1, [EvStderr session_key_missing])
     else
       match outcome_of (getCredentials env (strip line) s1) with
       | Ok (u, p) =>
           (Ok tt, upd (set_secretkey (Some p)) (upd (set_accesskey (Some u)) s1),
            [EvGetEntities (strip line)])
       | Raise e => (Raise e, s1, [EvGetEntities (strip line)])
       | OutOfFuel => (OutOfFuel, s1, [EvGetEntities (strip line)])
       end).
Proof.
  intros Hk. unfold grabKeys. rewrite run_bind. unfold read_self. cbv beta iota.
  rewrite Hk. rewrite run_bind. unfold readline.
  destruct s as [o c [| line rest]]; cbn [stdin hd tail self clock].
  - reflexivity.
  - destruct (String.length (strip line) =? 0)%nat; [reflexivity |].
    rewrite run_bind, getCredentials_run. cbn [outcome_of fst].
    destruct (getEntities env (strip line)) as [[| [n cr] l] | e]; try done.
    by destruct e.
Qed.

(** X1. Without a session key on standard input (nothing to read, or a
    line of white space only) [grabKeys] writes its complaint to standard
    error and exits with code 2: the credential store is not asked and no
    key is set. *)
Theorem grabKeys_without_session_key (env : Env) (s : State) :
  accesskey (self s) = None ->
  strip (hd "" (stdin s)) = "" ->
  outcome_of (grabKeys env s) = Raise (SystemExit 2)
  ∧ events_of (grabKeys env s) = [EvStderr session_key_missing]
  ∧ self (state_of (grabKeys env s)) = self s.
Proof.
  intros Hk Hline. rewrite (grabKeys_run env s Hk). cbv zeta. by rewrite Hline.
Qed.

Lemma grabKeys_without_session_key_witness :
  let s := {| self := new_object; clock := example_midnight; stdin := ["  "] |} in
  outcome_of (grabKeys (example_env []) s) = Raise (SystemExit 2).
Proof.
  intros s.
  destruct (grabKeys_without_session_key (example_env []) s eq_refl eq_refl)
    as (H & _).
  exact H.
Defined.

(** X2. With a session key and a store that holds credentials, [grabKeys]
    consumes the first line of standard input, takes both keys from the
    first credential of the store and asks the store once; called again on
    the object it finds the key set and does nothing at all. *)
Theorem grabKeys_sets_keys_once (env : Env) (s : State) (line : string)
    (rest : list string) (n : string) (c : Credential)
    (others : list (string * Credential)) :
  accesskey (self s) = None ->
  stdin s = line :: rest ->
  strip line ≠ "" ->
  getEntities env (strip line) = Success ((n, c) :: others) ->
  let s' := state_of (grabKeys env s) in
  outcome_of (grabKeys env s) = Ok tt
  ∧ events_of (grabKeys env s) = [EvGetEntities (strip line)]
  ∧ accesskey (self s') = Some (username c)
  ∧ secretkey (self s') = Some (clear_password c)
  ∧ stdin s' = rest
  ∧ grabKeys env s' = (Ok tt, s', []).
Proof.
  intros Hk Hin Hline Hstore. cbv zeta. rewrite (grabKeys_run env s Hk). cbv zeta.
  rewrite Hin. cbn [hd tail].
  destruct (strip line) as [| a k] eqn:Hs; [done |]. cbn [String.length Nat.eqb].
  rewrite getCredentials_run, Hstore. cbn [outcome_of state_of events_of fst snd].
  by split_and!.
Qed.

Lemma grabKeys_sets_keys_once_witness :
  let s' := state_of (grabKeys (example_env []) example_start) in
  accesskey (self s') = Some "AKIAEXAMPLE"
  ∧ grabKeys (example_env []) s' = (Ok tt, s', []).
Proof.
  intros s'.
  destruct (grabKeys_sets_keys_once (example_env []) example_start
              "session-key
" [] "aws" {| username := "AKIAEXAMPLE"; clear_password := "secret" |} [])
    as (_ & _ & Ha & _ & _ & Hagain); try reflexivity; [discriminate |].
  split; [exact Ha | exact Hagain].
Defined.

(** ** More on [__init__] *)

Lemma init_sets_limiter_witness :
  let s' := state_of (__init__ (example_env []) example_start) in
  totalRequests (self s') = 0
  ∧ maxRequestsPerTimePeriod (self s') = 2
  ∧ secondsToSleep (self s') = 1
  ∧ requestDateCounter (self s') = local_now (example_env []) s' + 1 * usec_per_sec.
Proof. exact (init_sets_limiter (example_env []) example_start example_init_ok). Defined.

#[export] Instance same_clock_preorder : PreOrder same_clock.
Proof.
  split.
  - by intros s.
  - intros s1 s2 s3 H12 H23. unfold same_clock in *. congruence.
Qed.





(** X8. The resolver can fail in two ways only. It raises [ValueError]
    exactly when there are two tokens, the first no string of digits and the
    second no integer literal; any other failure is the [OverflowError] of a
    look-back outside the range of datetimes. *)
Theorem resolve_failures (env : Env) (s : State) :
  (outcome_of (resolve env s) = Raise ValueError
   ↔ ∃ prog a1 a2, sys_argv env = [prog; a1; a2] ∧ isdigit a1 = false
                   ∧ ¬ valid_int_literal a2)
  ∧ (∀ e, outcome_of (resolve env s) = Raise e -> e = ValueError ∨ e = OverflowError)
  ∧ outcome_of (resolve env s) ≠ OutOfFuel.
Proof.
  rewrite resolve_outcome.
  assert (match choose (sys_argv env) with
          | Ok _ => True
          | Raise e =>
              e = ValueError
              ∧ ∃ prog a1 a2, sys_argv env = [prog; a1; a2] ∧ isdigit a1 = false
                              ∧ ¬ valid_int_literal a2
          | OutOfFuel => False
          end
          ∧ ((∃ prog a1 a2, sys_argv env = [prog; a1; a2] ∧ isdigit a1 = false
                            ∧ ¬ valid_int_literal a2)
             -> choose (sys_argv env) = Raise ValueError)) as [Hshape Hconv].
  { unfold choose.
    destruct (sys_argv env) as [| p [| a1 [| a2 [| a3 l]]]]; simpl.
    - split; [done | by intros (? & ? & ? & ? & _)].
    - split; [done | by intros (? & ? & ? & ? & _)].
    - split; [| by intros (? & ? & ? & ? & _)].
      destruct (isdigit a1) eqn:Ha; [| done]. by rewrite (int_isdigit a1 Ha).
    - destruct (isdigit a1) eqn:Ha.
      + rewrite (int_isdigit a1 Ha). split; [done |].
        intros (? & ? & ? & [= <- <- <-] & ? & _). congruence.
      + destruct (int_cases a2) as [[n Hi] | Hi]; rewrite Hi.
        * split; [done |]. intros (? & ? & ? & [= <- <- <-] & _ & Hbad).
          destruct Hbad. by exists n.
        * split; [| done]. split; [done |]. exists p, a1, a2. split_and!; try done.
          intros [n Hn]. congruence.
    - split; [done | by intros (? & ? & ? & ? & _)]. }
  destruct (choose (sys_argv env)) as [[reg n] | e |]; [| | done].
  - split_and!.
    + split.
      * by destruct (in_range (clock s) n).
      * intros H. by specialize (Hconv H).
    + intros e. destruct (in_range (clock s) n); [done |]. intros [= <-]. by right.
    + by destruct (in_range (clock s) n).
  - destruct Hshape as [-> Hshape]. split_and!; [done | | done].
    intros e [= <-]. by left.
Qed.

Lemma resolve_failures_witness :
  outcome_of (resolve (example_env ["us-west-2"; "soon"]) example_start)
  = Raise ValueError.
Proof.
  destruct (resolve_failures (example_env ["us-west-2"; "soon"]) example_start)
    as ([_ H] & _).
  apply H. exists "MetricGrabber.py", "us-west-2", "soon". split_and!; try reflexivity.
  intros [n Hn]. discriminate Hn.
Defined.

(** ** Long runs of the rate limit *)

Lemma sleeps_app (l1 l2 : list Event) : sleeps (l1 ++ l2) = (sleeps l1 ++ sleeps l2)%list.
Proof. apply omap_app. Qed.

Lemma throttle_calls_invariants (env : Env) (gaps : list N) :
  ∀ s,
    0 <= secondsToSleep (self s) ->
    0 <= maxRequestsPerTimePeriod (self s) ->
    0 <= totalRequests (self s) ->
    requestDateCounter (self s)
      <= local_now env s + secondsToSleep (self s) * usec_per_sec ->
    let r := throttle_calls env gaps s in
    outcome_of r = Ok tt
    ∧ secondsToSleep (self (state_of r)) = secondsToSleep (self s)
    ∧ maxRequestsPerTimePeriod (self (state_of r)) = maxRequestsPerTimePeriod (self s)
    ∧ 0 <= totalRequests (self (state_of r))
    ∧ (maxRequestsPerTimePeriod (self s) + 1) * Z.of_nat (length (sleeps (events_of r)))
        + totalRequests (self (state_of r))
      <= totalRequests (self s) + Z.of_nat (length gaps)
    ∧ Forall (eq (secondsToSleep (self s))) (sleeps (events_of r))
    ∧ requestDateCounter (self (state_of r))
      <= local_now env (state_of r) + secondsToSleep (self s) * usec_per_sec
    ∧ requestDateCounter (self s) <= requestDateCounter (self (state_of r))
    ∧ clock s <= clock (state_of r).
Proof.
  induction gaps as [| g gaps IH]; intros s Hd Hm Hc Hw; cbv zeta.
  - cbn [throttle_calls length]. unfold ret. cbn [outcome_of state_of events_of fst snd sleeps omap list_omap length].
    split_and!; try done; try lia. 
  - rewrite throttle_calls_cons.
    pose proof (throttle_meets_contract env (tick (Z.of_N g) s) Hd) as E.
    unfold throttle_contract in E.
    destruct s as [o c i]. destruct o. unfold local_now, tick, usec_per_sec in *.
    cbn [self clock stdin secondsToSleep maxRequestsPerTimePeriod totalRequests
         requestDateCounter set_totalRequests set_requestDateCounter] in *.
    case_decide as Hcond.
    + rewrite (run_bind_ok _ _ _ _ _ _ E).
      cbn [outcome_of state_of events_of fst snd].
      match goal with
      | |- context [throttle_calls env gaps ?st] =>
          specialize (IH st); cbv zeta in IH;
          unfold local_now, usec_per_sec in IH;
          cbn [self clock stdin secondsToSleep maxRequestsPerTimePeriod totalRequests
               requestDateCounter set_totalRequests set_requestDateCounter] in IH;
          destruct IH as (Hok & Hs & Hx & Hpos & Hcount & Hall & Hdead & Hmono & Hclk);
          [lia | lia | lia | lia |]
      end.
      rewrite sleeps_app. change (sleeps [EvSleep ?d]) with [d].
      cbn [app length]. rewrite Hs, Hx.
      split_and!; try done; try lia.
      by constructor.
    + rewrite (run_bind_ok _ _ _ _ _ _ E).
      cbn [outcome_of state_of events_of fst snd app].
      match goal with
      | |- context [throttle_calls env gaps ?st] =>
          specialize (IH st); cbv zeta in IH;
          unfold local_now, usec_per_sec in IH;
          cbn [self clock stdin secondsToSleep maxRequestsPerTimePeriod totalRequests
               requestDateCounter set_totalRequests set_requestDateCounter] in IH;
          destruct IH as (Hok & Hs & Hx & Hpos & Hcount & Hall & Hdead & Hmono & Hclk);
          [lia | lia | lia | lia |]
      end.
      rewrite Hs, Hx. cbn [length].
      split_and!; try done; try lia.
Qed.

(** X12. The rate limit never delays more than one call in
    [maxRequestsPerTimePeriod + 1]: over any sequence of calls, whatever the
    time between them, the number of sleeps times the allowance plus one is
    at most the number of calls plus the requests counted before; and every
    sleep lasts exactly [secondsToSleep]. *)
Theorem throttle_sleeps_sparingly (env : Env) (gaps : list N) (s : State) :
  0 <= secondsToSleep (self s) ->
  0 <= maxRequestsPerTimePeriod (self s) ->
  0 <= totalRequests (self s) ->
  requestDateCounter (self s)
    <= local_now env s + secondsToSleep (self s) * usec_per_sec ->
  let evs := events_of (throttle_calls env gaps s) in
  (maxRequestsPerTimePeriod (self s) + 1) * Z.of_nat (length (sleeps evs))
    <= totalRequests (self s) + Z.of_nat (length gaps)
  ∧ Forall (eq (secondsToSleep (self s))) (sleeps evs).
Proof.
  intros Hd Hm Hc Hw.
  destruct (throttle_calls_invariants env gaps s Hd Hm Hc Hw)
    as (_ & _ & _ & Hpos & Hcount & Hall & _).
  split; [lia | done].
Qed.

Lemma throttle_sleeps_sparingly_witness :
  let evs := events_of (throttle_calls (example_env [])
                          [0; 0; 0; 0; 0; 0; 0]%N (example_ready [])) in
  (2 + 1) * Z.of_nat (length (sleeps evs)) <= 0 + 7.
Proof.
  intros evs.
  assert (0 <= 1) as H1 by lia. assert (0 <= 2) as H2 by lia.
  assert (0 <= 0) as H0 by lia.
  assert (requestDateCounter (self (example_ready []))
          <= local_now (example_env []) (example_ready [])
             + secondsToSleep (self (example_ready [])) * usec_per_sec) as Hw
    by (vm_compute; discriminate).
  exact (proj1 (throttle_sleeps_sparingly (example_env []) [0; 0; 0; 0; 0; 0; 0]%N
                  (example_ready []) H1 H2 H0 Hw)).
Defined.

(** X13. The deadline of the rate limit is never more than
    [secondsToSleep] ahead of the clock and never moves back: both hold
    after any sequence of calls if they hold before (as they do after
    [__init__]). *)
Theorem throttle_deadline_bounded (env : Env) (gaps : list N) (s : State) :
  0 <= secondsToSleep (self s) ->
  0 <= maxRequestsPerTimePeriod (self s) ->
  0 <= totalRequests (self s) ->
  requestDateCounter (self s)
    <= local_now env s + secondsToSleep (self s) * usec_per_sec ->
  let s' := state_of (throttle_calls env gaps s) in
  requestDateCounter (self s')
    <= local_now env s' + secondsToSleep (self s) * usec_per_sec
  ∧ requestDateCounter (self s) <= requestDateCounter (self s')
  ∧ 0 <= totalRequests (self s').
Proof.
  intros Hd Hm Hc Hw.
  destruct (throttle_calls_invariants env gaps s Hd Hm Hc Hw)
    as (_ & _ & _ & Hpos & _ & _ & Hdead & Hmono & _).
  done.
Qed.

Lemma throttle_deadline_bounded_witness :
  let s := example_ready [] in
  let s' := state_of (throttle_calls (example_env []) [0; 0; 0; 0]%N s) in
  requestDateCounter (self s) <= requestDateCounter (self s').
Proof.
  intros s s'.
  assert (0 <= 1) as H1 by lia. assert (0 <= 2) as H2 by lia.
  assert (0 <= 0) as H0 by lia.
  assert (requestDateCounter (self s)
          <= local_now (example_env []) s + secondsToSleep (self s) * usec_per_sec)
    as Hw by (vm_compute; discriminate).
  exact (proj1 (proj2 (throttle_deadline_bounded (example_env []) [0; 0; 0; 0]%N
                         s H1 H2 H0 Hw))).
Defined.

(** ** The lines [printMetrics] prints *)

(** X16. The metric name sent to the service and matched against the
    pattern is the name of the descriptor as it is, also when the name
    itself holds a colon: [str(i).partition(":")[2]] undoes the ["Metric:"]
    that [str] puts in front, and [str(i).startswith("Metric:" + q)] is the
    test that the name starts with [q]. *)
Theorem metric_name_exact (i : Metric) (q : string) :
  (partition ":" (str_metric i)).2 = name i
  ∧ startswith (str_metric i) ("Metric:" +:+ q) = String.prefix q (name i).
Proof. split; [apply metric_name_partition | apply prefix_metric]. Qed.

Example metric_name_with_colon :
  (partition ":" (str_metric {| name := "a:b"; dimensions := ∅; Statistics := [] |})).2
  = "a:b".
Proof. reflexivity. Qed.

Lemma printed_app (l1 l2 : list Event) : printed (l1 ++ l2) = (printed l1 ++ printed l2)%list.
Proof. apply omap_app. Qed.

Lemma printed_prints (ls : list Line) : printed (map EvPrint ls) = ls.
Proof. induction ls as [| l ls IH]; [done |]. simpl. by rewrite IH. Qed.

Lemma sleeps_not_printed (evs : list Event) : Forall is_sleep evs -> printed evs = [].
Proof. induction 1 as [| e evs [d ->] _ IH]; [done |]. simpl. apply IH. Qed.

Lemma row_cells_outcome (v : DataPoint) (stats : list string) (tmp : string) (s : State) :
  row_cells v stats tmp s
  = (match missing v stats with
     | Some k => Raise (KeyError k)
     | None => Ok (cells_of v stats tmp)
     end, s, []).
Proof.
  revert tmp. induction stats as [| stat rest IH]; intros tmp; [done |].
  unfold missing in *. cbn [row_cells find cells_of fold_left].
  destruct (fields v !! stat) as [x |] eqn:Hx.
  - rewrite bool_decide_eq_false_2 by done. apply IH.
  - by rewrite bool_decide_eq_true_2.
Qed.

Lemma missing_absent (v : DataPoint) (stats : list string) (k : string) :
  missing v stats = Some k -> k ∈ stats ∧ fields v !! k = None.
Proof.
  unfold missing. intros H. apply find_some in H as [Hin Hb].
  split; [by apply list_elem_of_In | by apply bool_decide_eq_true in Hb].
Qed.

Lemma print_datapoint_run o (g : string) (inst : list string) metricName i v s :
  print_datapoint o (g :: inst) metricName i v s
  = (match missing v (Statistics i) with
     | Some k => Raise (KeyError k)
     | None => Ok tt
     end, s,
     map EvPrint
       (match missing v (Statistics i) with
        | Some _ => take 3 (datapoint_block o g metricName i v)
        | None => datapoint_block o g metricName i v
        end)).
Proof.
  unfold print_datapoint, datapoint_truthy, first_of, print, datapoint_block, group_line.
  unfold mbind, M_bind, bind, emit, ret. cbn [app].
  rewrite row_cells_outcome.
  by destruct (missing v (Statistics i)).
Qed.

(** X11. When a data point lacks one of the statistics of its descriptor,
    printing it raises [KeyError] for the first one that is missing: the
    empty line, the series and the column header of the point are out by
    then, its row is not. *)
Theorem missing_statistic_is_KeyError o (g : string) (inst : list string)
    metricName i v (k : string) (s : State) :
  missing v (Statistics i) = Some k ->
  let r := print_datapoint o (g :: inst) metricName i v s in
  outcome_of r = Raise (KeyError k)
  ∧ k ∈ Statistics i ∧ fields v !! k = None
  ∧ printed (events_of r)
    = [Text ""; group_line o g metricName; Text (statsString i)]
  ∧ row_timestamps (events_of r) = [].
Proof.
  intros Hk. cbv zeta. rewrite print_datapoint_run, Hk.
  destruct (missing_absent _ _ _ Hk) as [Hin Hnone].
  cbn [outcome_of events_of fst snd]. split_and!; try done.
Qed.

Lemma missing_statistic_is_KeyError_witness :
  let v := {| Timestamp := example_midnight; fields := {[ "Average" := "1.0" ]} |} in
  outcome_of (print_datapoint new_object ["i-123"] "CPUUtilization" cpu_i123 v
                example_start)
  = Raise (KeyError "Sum").
Proof.
  intros v.
  exact (proj1 (missing_statistic_is_KeyError new_object "i-123" [] "CPUUtilization"
                  cpu_i123 v "Sum" example_start eq_refl)).
Defined.

Lemma for_each_datapoints_run o (g : string) (inst : list string) metricName i
    (l : list DataPoint) (s : State) :
  Forall (fun v => missing v (Statistics i) = None) l ->
  for_each l (print_datapoint o (g :: inst) metricName i) s
  = (Ok tt, s, map EvPrint (flat_map (datapoint_block o g metricName i) l)).
Proof.
  induction 1 as [| v l Hv _ IH]; [done |].
  cbn [for_each flat_map]. rewrite run_bind, print_datapoint_run, Hv, IH.
  by rewrite map_app.
Qed.

Lemma datapoint_block_settings (o o' : MetricGrabber) g metricName i v :
  settings o' = settings o ->
  datapoint_block o' g metricName i v = datapoint_block o g metricName i v.
Proof. destruct o, o'. unfold settings. simpl. intros [=]. by subst. Qed.

(** X10. When the rate limit returns, the connection exists, the service
    answers and every data point holds every statistic of the descriptor,
    [printMetrics] returns and prints, for each data point in the order of
    the timestamps, four lines: an empty one, the series (first value of the
    instance id, metric, dimension key, region), the column header and the
    row. An answer without data points prints nothing. *)
Theorem printMetrics_blocks (env : Env) (g : string) (inst : list string)
    (i : Metric) (s : State) (cw : Cloudwatch) (values : list DataPoint) :
  0 <= secondsToSleep (self s) ->
  cloudwatch (self s) = Some cw ->
  response (get_metric_statistics cw (stat_request (self s) (name i) (g :: inst) i))
    = Success values ->
  Forall (fun v => missing v (Statistics i) = None) values ->
  let r := printMetrics env (Some (g :: inst)) i s in
  outcome_of r = Ok tt
  ∧ printed (events_of r)
    = flat_map (datapoint_block (self s) g (name i) i) (sorted Timestamp values)
  ∧ length (printed (events_of r)) = (4 * length values)%nat.
Proof.
  intros Hd Hcw Hresp Hall. cbv zeta.
  pose proof (printMetrics_run env (g :: inst) i s) as Hrun. cbv zeta in Hrun.
  rewrite (throttle_returns env s Hd), Hcw, Hresp in Hrun.
  destruct Hrun as [Hev Hout].
  assert (Forall (fun v => missing v (Statistics i) = None) (sorted Timestamp values))
    as Hsorted by by rewrite sorted_perm.
  rewrite (for_each_datapoints_run _ g inst (name i) i _ _ Hsorted) in Hev, Hout.
  cbn [outcome_of events_of fst snd] in Hev, Hout.
  rewrite Hev, Hout, printed_app, (sleeps_not_printed _ (throttle_only_sleeps env s)).
  cbn [app printed omap list_omap]. fold (printed (map EvPrint
    (flat_map (datapoint_block (self (state_of (throttle env s))) g (name i) i)
       (sorted Timestamp values)))).
  rewrite printed_prints.
  assert (flat_map (datapoint_block (self (state_of (throttle env s))) g (name i) i)
            (sorted Timestamp values)
          = flat_map (datapoint_block (self s) g (name i) i) (sorted Timestamp values))
    as ->.
  { apply flat_map_ext. intros v.
    apply datapoint_block_settings, throttle_keeps_settings. }
  split_and!; [done | done |].
  rewrite <- (Permutation_length (sorted_perm Timestamp values)).
  generalize (sorted Timestamp values). intros l.
  induction l as [| v l IH]; [done |]. cbn [flat_map length app datapoint_block].
  rewrite IH. lia.
Qed.

Lemma printMetrics_blocks_witness :
  length (printed (events_of
    (printMetrics (example_env []) (Some ["i-123"]) cpu_i123 example_listing)))
  = 12%nat.
Proof.
  assert (0 <= 1) as Hd by lia.
  exact (proj2 (proj2 (printMetrics_blocks (example_env []) "i-123" [] cpu_i123
                         example_listing example_cloudwatch _ Hd eq_refl eq_refl
                         ltac:(repeat constructor)))).
Defined.

(** ** Failures *)





(** X15. A failure of the service is not caught. When the request for the
    statistics of a descriptor fails, [printMetrics] raises that very
    exception after the one request, having printed nothing; when the first
    listing fails, [grabMetrics] raises it after that one request. *)
Theorem service_failures_propagate (env : Env) (s : State) (cw : Cloudwatch) (e : exn) :
  cloudwatch (self s) = Some cw ->
  (∀ inst i,
     0 <= secondsToSleep (self s) ->
     response (get_metric_statistics cw (stat_request (self s) (name i) inst i))
       = Failure e ->
     let r := printMetrics env (Some inst) i s in
     outcome_of r = Raise e
     ∧ stat_requests (events_of r) = [stat_request (self s) (name i) inst i]
     ∧ printed (events_of r) = [])
  ∧ (∀ fuel,
       response (list_metrics cw [None; None; None; namespace (self s)]) = Failure e ->
       let r := grabMetrics env fuel s in
       outcome_of r = Raise e
       ∧ events_of r = [EvListMetrics [None; None; None; namespace (self s)]]).
Proof.
  intros Hcw. split.
  - intros inst i Hd Hresp. cbv zeta.
    pose proof (printMetrics_run env inst i s) as Hrun. cbv zeta in Hrun.
    rewrite (throttle_returns env s Hd), Hcw, Hresp in Hrun.
    destruct Hrun as [Hev Hout].
    destruct (printMetrics_requests env inst i s) as [Hreq _].
    rewrite (throttle_returns env s Hd), Hcw in Hreq.
    split_and!; [done | done |].
    rewrite Hev, printed_app, (sleeps_not_printed _ (throttle_only_sleeps env s)).
    done.
  - intros fuel Hresp. cbv zeta. unfold grabMetrics.
    rewrite run_bind. unfold read_self. cbv beta iota.
    rewrite run_bind, connection_run, Hcw.
    by rewrite run_bind, call_run, Hresp.
Qed.

Lemma service_failures_propagate_witness :
  let s := upd (set_cloudwatch (Some failing_cloudwatch)) (example_ready []) in
  outcome_of (grabMetrics (example_env []) 3 s) = Raise (Exception "Throttling").
Proof.
  intros s.
  destruct (service_failures_propagate (example_env []) s failing_cloudwatch
              (Exception "Throttling") eq_refl) as [_ H].
  exact (proj1 (H 3%nat eq_refl)).
Defined.

Lemma for_each_app {A : Type} (l1 l2 : list A) (body : A -> M unit) (s : State) :
  for_each (l1 ++ l2) body s = (for_each l1 body ≫= fun _ => for_each l2 body) s.
Proof.
  revert s. induction l1 as [| x l1 IH]; intros s.
  - cbn [app for_each]. rewrite run_bind. unfold ret.
    by destruct (for_each l2 body s) as [[? ?] ?].
  - cbn [app for_each]. rewrite !run_bind.
    destruct (body x s) as [[[[] | e |] s1] t1]; [| done..].
    rewrite IH, run_bind.
    destruct (for_each l1 body s1) as [[[[] | e |] s2] t2]; [| done..].
    destruct (for_each l2 body s2) as [[r s3] t3]. by rewrite app_assoc.
Qed.

(** X18. The run ends at the first failure. When a descriptor of a page
    fails, the descriptors after it are not touched: the page leaves the
    events of the descriptors before it and of the failing one; and the loop
    of [grabMetrics] raises the same exception without asking for any
    further page. *)
Theorem failure_ends_the_run (env : Env) (fuel : nat) (before after : list Metric)
    (i : Metric) (token : option string) (s : State) (e : exn) :
  let p := {| metrics_items := before ++ i :: after; metrics_next_token := token |} in
  let s1 := state_of (for_each before (process_item env) s) in
  outcome_of (for_each before (process_item env) s) = Ok tt ->
  outcome_of (process_item env i s1) = Raise e ->
  let r := grabMetrics_loop env (S fuel) p s in
  outcome_of r = Raise e
  ∧ events_of r
    = (events_of (for_each before (process_item env) s)
       ++ events_of (process_item env i s1))%list
  ∧ list_metrics_calls (events_of r) = [].
Proof.
  intros p s1 Hbefore Hfail. cbv zeta.
  assert (for_each (before ++ i :: after) (process_item env) s
          = (Raise e, state_of (process_item env i s1),
             (events_of (for_each before (process_item env) s)
              ++ events_of (process_item env i s1))%list)) as Hpage.
  { rewrite for_each_app, run_bind. subst s1.
    destruct (for_each before (process_item env) s) as [[r0 s0] t0].
    cbn [outcome_of state_of events_of fst snd] in *. subst r0.
    cbn [for_each]. rewrite run_bind.
    destruct (process_item env i s0) as [[r1 s2] t1].
    cbn [outcome_of state_of events_of fst snd] in *. by subst r1. }
  cbn [grabMetrics_loop]. subst p. cbn [metrics_items metrics_next_token].
  rewrite run_bind, Hpage. cbn [outcome_of events_of fst snd].
  split_and!; [done | done |].
  rewrite list_metrics_calls_app.
  pose proof (for_each_items_events env before s) as ->.
  by rewrite process_item_events.
Qed.

Lemma failure_ends_the_run_witness :
  let s := upd (set_attribute (Some "InstanceId"))
             (upd (set_cloudwatch (Some failing_cloudwatch)) (example_ready [])) in
  outcome_of
    (grabMetrics_loop (example_env []) 1
       {| metrics_items := [network_in_total] ++ cpu_i123 :: [network_in_i456];
          metrics_next_token := Some "page-2" |} s)
  = Raise (Exception "Throttling").
Proof.
  intros s.
  exact (proj1 (failure_ends_the_run (example_env []) 0 [network_in_total]
                  [network_in_i456] cpu_i123 (Some "page-2") s
                  (Exception "Throttling") eq_refl eq_refl)).
Defined.

(** ** What the queries ask for *)

Lemma request_of_object_settings (o o' : MetricGrabber) (r : StatRequest) :
  settings o' = settings o -> request_of_object o r -> request_of_object o' r.
Proof. destruct o, o'. unfold settings, request_of_object. simpl. intros [=]. by subst. Qed.

Lemma selected_nonempty (o : MetricGrabber) (i : Metric) (inst : list string) :
  selected o i = Some inst -> inst ≠ [].
Proof.
  intros H%selected_should_emit. destruct H as [[(k & _ & _ & _ & Hne) | (_ & _ & ->)] _];
    done.
Qed.

Lemma process_item_stat_requests (env : Env) (i : Metric) (s : State) :
  Forall (request_of_object (self s))
    (stat_requests (events_of (process_item env i s))).
Proof.
  pose proof (selected_nonempty (self s) i) as Hne. unfold selected in Hne.
  rewrite process_item_run. cbv zeta in *.
  destruct (list_truthy _) eqn:Ht; [| constructor].
  destruct (if truthy _ then _ else _); [| constructor].
  destruct (resolve_instanceId (self s) i) as [inst |]; [| done].
  specialize (Hne inst eq_refl).
  destruct (printMetrics_requests env inst i s) as [-> _].
  destruct (outcome_of (throttle env s)); [| constructor..].
  destruct (cloudwatch (self s)); [| constructor].
  constructor; [| constructor].
  unfold request_of_object, stat_request. cbn [sr_period sr_start_time sr_end_time
    sr_namespace sr_dimensions]. split_and!; try done.
  - by case_decide.
  - intros k inst'. case_decide; [done |]. by intros [= <- <-].
Qed.

Lemma for_each_items_stat_requests (env : Env) (l : list Metric) (s : State) :
  Forall (request_of_object (self s))
    (stat_requests (events_of (for_each l (process_item env) s))).
Proof.
  revert s. induction l as [| i l IH]; intros s; [constructor |].
  cbn [for_each]. rewrite bind_events, stat_requests_app. apply Forall_app. split.
  - apply process_item_stat_requests.
  - destruct (outcome_of (process_item env i s)); [| constructor..].
    eapply Forall_impl; [apply IH |]. intros r.
    apply request_of_object_settings. symmetry. apply process_item_keeps_settings.
Qed.

Lemma grabMetrics_loop_stat_requests (env : Env) (fuel : nat) (p : MetricPage) (s : State) :
  Forall (request_of_object (self s))
    (stat_requests (events_of (grabMetrics_loop env fuel p s))).
Proof.
  revert p s. induction fuel as [| fuel IH]; intros p s; [constructor |].
  cbn [grabMetrics_loop].
  rewrite bind_events, stat_requests_app. apply Forall_app. split.
  - apply for_each_items_stat_requests.
  - pose proof (for_each_items_keep_settings env (metrics_items p) s) as Hset.
    destruct (outcome_of (for_each _ _ s)) as [[] | e |]; [| constructor..].
    set (s1 := state_of _) in *. clearbody s1.
    destruct (truthy (metrics_next_token p)); [| constructor].
    rewrite bind_events, connection_run.
    cbn [outcome_of state_of events_of fst snd app].
    destruct (cloudwatch (self s1)) as [cw |]; [| constructor].
    rewrite bind_events, call_run.
    cbn [outcome_of state_of events_of fst snd app].
    change (stat_requests (EvListMetrics ?a :: ?l)) with (stat_requests l).
    destruct (response _) as [q | e]; [| constructor].
    eapply Forall_impl; [apply IH |]. intros r.
    apply request_of_object_settings. by symmetry.
Qed.

(** X9. Every statistics request of a run of [grabMetrics], whatever the
    pages and however the run ends, asks for a granularity of 60 seconds
    over the window and in the namespace of the object; it carries no
    dimension filter exactly when the dimension key is ["MetricName"], and
    else the filter on that key with a value that is not empty. *)
Theorem stat_requests_of_object (env : Env) (fuel : nat) (s : State) :
  Forall (request_of_object (self s))
    (stat_requests (events_of (grabMetrics env fuel s))).
Proof.
  unfold grabMetrics. rewrite bind_events. unfold read_self.
  cbn [outcome_of state_of events_of fst snd app].
  rewrite bind_events, connection_run.
  cbn [outcome_of state_of events_of fst snd app].
  destruct (cloudwatch (self s)) as [cw |]; [| constructor].
  rewrite bind_events, call_run.
  cbn [outcome_of state_of events_of fst snd app].
  change (stat_requests (EvListMetrics ?a :: ?l)) with (stat_requests l).
  destruct (response _) as [p | e]; [| constructor].
  apply (grabMetrics_loop_stat_requests env fuel p
           (tick (Z.of_N (elapsed (list_metrics cw _))) s)).
Qed.

(** ** [connect] *)

Lemma connect_run (env : Env) (fuel : nat) (ns qt att : option string) (s : State) :
  let s' := upd (set_attribute att) (upd (set_queryType qt) (upd (set_namespace ns) s)) in
  connect env fuel ns qt att s
  = (if bool_decide (ns = Some "AlarmHistory")
     then grabAlarmHistory fuel s' else grabMetrics env fuel s').
Proof.
  intros s'. unfold connect, mbind, M_bind, bind, assign. cbv beta iota.
  destruct (bool_decide (ns = Some "AlarmHistory")).
  - match goal with
    | |- context [grabAlarmHistory fuel ?st] => change st with s'
    end.
    by destruct (grabAlarmHistory fuel s') as [[? ?] ?].
  - match goal with
    | |- context [grabMetrics env fuel ?st] => change st with s'
    end.
    by destruct (grabMetrics env fuel s') as [[? ?] ?].
Qed.

Lemma grabAlarmHistory_events (fuel : nat) :
  respects trivial_frame is_alarm_event (grabAlarmHistory fuel).
Proof.
  assert (∀ fuel p, respects trivial_frame is_alarm_event (grabAlarmHistory_loop fuel p))
    as Hloop.
  { clear fuel. induction fuel as [| fuel IH]; intros p; simpl.
    - respects_step.
    - unfold print_alarm. repeat respects_step;
        first [ done | left; by eexists
              | apply connection_respects; exact _
              | apply call_respects; first [exact _ | done | right; by eexists]
              | apply IH ]. }
  unfold grabAlarmHistory. repeat respects_step;
    first [ apply connection_respects; exact _
          | apply call_respects; first [exact _ | done | right; by eexists]
          | apply Hloop ].
Qed.

Lemma grabMetrics_events (env : Env) (fuel : nat) :
  respects trivial_frame is_metric_event (grabMetrics env fuel).
Proof.
  apply grabMetrics_respects; try done; try exact _.
  - intros d. right. left. by eexists.
  - intros l. left. by eexists.
  - intros r. right. right. right. by eexists.
  - intros a. right. right. left. by eexists.
Qed.

(** X6. [connect] stores its three arguments and then runs one of the two
    queries. For the namespace ["AlarmHistory"] it only prints and asks for
    the alarm history: no metric is listed, no statistic requested, and the
    rate limit is not applied (nothing sleeps). For any other namespace it
    never asks for the alarm history. *)
Theorem connect_dispatch (env : Env) (fuel : nat) (ns qt att : option string)
    (s : State) :
  let evs := events_of (connect env fuel ns qt att s) in
  (ns = Some "AlarmHistory" ->
     Forall is_alarm_event evs
     ∧ sleeps evs = [] ∧ stat_requests evs = [] ∧ list_metrics_calls evs = [])
  ∧ (ns ≠ Some "AlarmHistory" -> Forall is_metric_event evs).
Proof.
  cbv zeta. rewrite connect_run. cbv zeta. split.
  - intros ->. rewrite bool_decide_eq_true_2 by done.
    match goal with
    | |- context [grabAlarmHistory fuel ?st] =>
        destruct (grabAlarmHistory_events fuel st) as [_ Hev]
    end.
    split; [done |].
    induction Hev as [| e evs [[l ->] | [r ->]] _ IH]; [done | apply IH | apply IH].
  - intros Hns. rewrite bool_decide_eq_false_2 by done.
    match goal with
    | |- context [grabMetrics env fuel ?st] =>
        destruct (grabMetrics_events env fuel st) as [_ Hev]
    end.
    done.
Qed.

Lemma connect_dispatch_witness :
  sleeps (events_of (connect (example_env []) 3 (Some "AlarmHistory") None None
                       (example_ready [])))
  = [].
Proof.
  destruct (connect_dispatch (example_env []) 3 (Some "AlarmHistory") None None
              (example_ready [])) as [H _].
  exact (proj1 (proj2 (H eq_refl))).
Defined.

(** ** The alarm history ([grabAlarmHistory], lines 164 to 183) *)

Lemma alarm_requests_app (l1 l2 : list Event) :
  alarm_requests (l1 ++ l2) = (alarm_requests l1 ++ alarm_requests l2)%list.
Proof. apply omap_app. Qed.

Lemma alarm_requests_prints (ls : list Line) : alarm_requests (map EvPrint ls) = [].
Proof. by induction ls. Qed.

Lemma print_alarm_run (a : AlarmHistoryItem) (s : State) :
  print_alarm a s = (Ok tt, s, map EvPrint (alarm_block a)).
Proof. reflexivity. Qed.

Lemma for_each_alarms_run (l : list AlarmHistoryItem) (s : State) :
  for_each l print_alarm s = (Ok tt, s, map EvPrint (flat_map alarm_block l)).
Proof.
  induction l as [| a l IH]; [done |].
  cbn [for_each flat_map]. rewrite run_bind, print_alarm_run, IH.
  by rewrite map_app.
Qed.

Lemma grabAlarmHistory_loop_run (cw : Cloudwatch) (o : MetricGrabber) (p : AlarmPage)
    (rest : list AlarmPage) :
  alarm_chain cw o p rest ->
  ∀ fuel s, (length rest < fuel)%nat -> self s = o -> cloudwatch o = Some cw ->
    let r := grabAlarmHistory_loop fuel p s in
    outcome_of r = Ok tt
    ∧ self (state_of r) = o
    ∧ printed (events_of r)
      = flat_map alarm_block (concat (map alarms_items (p :: rest)))
    ∧ alarm_requests (events_of r)
      = map (fun q => alarm_request o (alarms_next_token q))
            (take (length rest) (p :: rest)).
Proof.
  induction 1 as [p Htok | p q rest Htok Hnext Hchain IH]; intros fuel s Hfuel Hs Hcw;
    (destruct fuel as [| fuel]; [simpl in Hfuel; lia |]);
    cbv zeta; cbn [grabAlarmHistory_loop]; rewrite Htok.
  - rewrite run_bind, for_each_alarms_run. unfold ret.
    cbn [outcome_of state_of events_of fst snd map concat length take].
    rewrite !app_nil_r, printed_prints, alarm_requests_prints. by split_and!.
  - rewrite run_bind, for_each_alarms_run.
    rewrite run_bind. unfold read_self. cbv beta iota.
    rewrite run_bind, connection_run, Hs, Hcw.
    rewrite run_bind, call_run. fold (alarm_request o (alarms_next_token p)).
    rewrite Hnext.
    match goal with
    | |- context [grabAlarmHistory_loop fuel q ?st] =>
        destruct (IH fuel st) as (Hok & Hself & Hpr & Hreq);
          [simpl in Hfuel; lia | done | done |];
          destruct (grabAlarmHistory_loop fuel q st) as [[r1 s1] t1]
    end.
    cbn [outcome_of state_of events_of fst snd app] in *.
    rewrite printed_app, alarm_requests_app, printed_prints, alarm_requests_prints.
    change (printed (EvDescribeAlarmHistory ?a :: ?l)) with (printed l).
    change (alarm_requests (EvDescribeAlarmHistory ?a :: ?l))
      with (a :: alarm_requests l).
    rewrite Hpr, Hreq. split_and!; try done.
    change (map alarms_items (p :: q :: rest))
      with (alarms_items p :: map alarms_items (q :: rest)).
    cbn [concat]. by rewrite flat_map_app.
Qed.

(** X7. When the service answers the alarm history in a finite chain of
    pages, [grabAlarmHistory] with fuel for every page returns and leaves
    the object as it was. It prints six lines for every alarm, the alarms of
    a page in their order and page after page, and makes one request for the
    first page and one per cursor; every request carries the window of the
    object, and none but the first a cursor that is empty. No call is rate
    limited. *)
Theorem alarm_history_complete (cw : Cloudwatch) (p : AlarmPage)
    (rest : list AlarmPage) (fuel : nat) (s : State) :
  cloudwatch (self s) = Some cw ->
  response (describe_alarm_history cw (alarm_request (self s) None)) = Success p ->
  alarm_chain cw (self s) p rest ->
  (length rest < fuel)%nat ->
  let r := grabAlarmHistory fuel s in
  outcome_of r = Ok tt
  ∧ self (state_of r) = self s
  ∧ printed (events_of r)
    = flat_map alarm_block (concat (map alarms_items (p :: rest)))
  ∧ alarm_requests (events_of r)
    = alarm_request (self s) None
      :: map (fun q => alarm_request (self s) (alarms_next_token q))
           (take (length rest) (p :: rest))
  ∧ sleeps (events_of r) = [].
Proof.
  intros Hcw Hfirst Hchain Hfuel. cbv zeta.
  assert (sleeps (events_of (grabAlarmHistory fuel s)) = []) as Hsl.
  { destruct (grabAlarmHistory_events fuel s) as [_ Hev].
    induction Hev as [| e evs [[l ->] | [r ->]] _ IH]; [done | apply IH | apply IH]. }
  revert Hsl. unfold grabAlarmHistory.
  rewrite run_bind. unfold read_self. cbv beta iota.
  rewrite run_bind, connection_run, Hcw.
  rewrite run_bind, call_run. fold (alarm_request (self s) None). rewrite Hfirst.
  match goal with
  | |- context [grabAlarmHistory_loop fuel p ?st] =>
      destruct (grabAlarmHistory_loop_run cw (self s) p rest Hchain fuel st)
        as (Hok & Hself & Hpr & Hreq); [done | done | done |];
        destruct (grabAlarmHistory_loop fuel p st) as [[r1 s1] t1]
  end.
  cbn [outcome_of state_of events_of fst snd app] in *.
  change (printed (EvDescribeAlarmHistory ?a :: ?l)) with (printed l).
  change (alarm_requests (EvDescribeAlarmHistory ?a :: ?l))
    with (a :: alarm_requests l).
  intros Hsl. by rewrite Hpr, Hreq.
Qed.

Lemma alarm_history_complete_witness :
  length (printed (events_of (grabAlarmHistory 2 alarm_state))) = 12%nat
  ∧ alarm_requests (events_of (grabAlarmHistory 2 alarm_state))
    = [alarm_request (self alarm_state) None;
       alarm_request (self alarm_state) (Some "more")].
Proof.
  assert (alarm_chain alarm_cloudwatch (self alarm_state) alarm_page1 [alarm_page2])
    as Hchain.
  { apply alarm_chain_next; [reflexivity | reflexivity |].
    by apply alarm_chain_last. }
  destruct (alarm_history_complete alarm_cloudwatch alarm_page1 [alarm_page2] 2
              alarm_state eq_refl eq_refl Hchain (Nat.lt_succ_diag_r 1))
    as (_ & _ & Hpr & Hreq & _).
  split.
  - by rewrite Hpr.
  - exact Hreq.
Defined.

Lemma grabKeys_leaves_key (env : Env) (s : State) :
  outcome_of (grabKeys env s) = Ok tt ->
  accesskey (self (state_of (grabKeys env s))) ≠ None.
Proof.
  destruct (accesskey (self s)) as [k |] eqn:Hk.
  - unfold grabKeys. rewrite run_bind. unfold read_self. cbv beta iota.
    rewrite Hk. unfold mret, M_ret, ret. cbn [outcome_of state_of fst snd].
    intros _. by rewrite Hk.
  - rewrite (grabKeys_run env s Hk). cbv zeta.
    destruct (String.length _ =? 0)%nat; [done |].
    by destruct (outcome_of (getCredentials env _ _)) as [[u p] | e |].
Qed.

(** X17. When [__init__] returns, the object holds an access key, and its
    connection is what [connect_to_region] answered for the region and the
    keys the object holds: the region of the arguments, not the default,
    whenever the arguments name one. *)
Theorem init_connects_resolved_region (env : Env) (s : State) :
  outcome_of (__init__ env s) = Ok tt ->
  let o := self (state_of (__init__ env s)) in
  accesskey o ≠ None
  ∧ cloudwatch o = connect_to_region env (region o) (accesskey o) (secretkey o)
  ∧ (∀ reg n, choose (sys_argv env) = Ok (reg, n) -> region o = reg).
Proof.
  intros Hok. unfold __init__ in *.
  apply bind_ok_inv in Hok as ([] & Hkeys & Hok & -> & _).
  pose proof (grabKeys_leaves_key env s Hkeys) as Hkey.
  set (s1 := state_of (grabKeys env s)) in *. clearbody s1.
  apply bind_ok_inv in Hok as ([] & Hres & _ & -> & _).
  rewrite resolve_outcome in Hres.
  destruct (choose (sys_argv env)) as [[reg n] | e |] eqn:Hc; [| done..].
  destruct (in_range (clock s1) n) eqn:Hr; [| done].
  rewrite (resolve_ok env s1 reg n Hc Hr).
  destruct s1 as [[] ? ?]. cbv zeta. split_and!; [done | done |].
  by intros reg' n' [= <- <-].
Qed.

Lemma init_connects_resolved_region_witness :
  region (self (state_of (__init__ (example_env ["eu-west-1"]) example_start)))
  = "eu-west-1".
Proof.
  assert (outcome_of (__init__ (example_env ["eu-west-1"]) example_start) = Ok tt)
    as Hok by reflexivity.
  destruct (init_connects_resolved_region (example_env ["eu-west-1"]) example_start Hok)
    as (_ & _ & H).
  exact (H "eu-west-1" 300 eq_refl).
Defined.

(** X19. Once the clock has reached the deadline of the rate limit, no
    later call sleeps, however many calls follow and however little time
    passes between them: each call only adds one to the count, and the
    deadline stays where it is. (This is the behaviour that C5 reports.) *)
Theorem limiter_off_after_deadline (env : Env) (gaps : list N) (s : State) :
  0 <= secondsToSleep (self s) ->
  requestDateCounter (self s) <= local_now env s ->
  let r := throttle_calls env gaps s in
  outcome_of r = Ok tt
  ∧ sleeps (events_of r) = []
  ∧ totalRequests (self (state_of r))
    = totalRequests (self s) + Z.of_nat (length gaps)
  ∧ requestDateCounter (self (state_of r)) = requestDateCounter (self s).
Proof.
  intros Hd Hw. cbv zeta.
  destruct (throttle_calls_after_deadline env gaps s Hd) as (s' & -> & Hc & Hr).
  - pose proof (N2Z.is_nonneg (hd 0%N gaps)). lia.
  - by split_and!.
Qed.

Lemma limiter_off_after_deadline_witness :
  let s := tick (2 * usec_per_sec) (example_ready []) in
  sleeps (events_of (throttle_calls (example_env []) [0; 0; 0; 0; 0; 0]%N s)) = [].
Proof.
  intros s.
  assert (0 <= 1) as Hd by lia.
  assert (requestDateCounter (self s) <= local_now (example_env []) s) as Hw
    by (vm_compute; discriminate).
  exact (proj1 (proj2 (limiter_off_after_deadline (example_env [])
                         [0; 0; 0; 0; 0; 0]%N s Hd Hw))).
Defined.
